(** * StarfoxPlayerController: the per-frame simulation of the rail-shooter
    player controller (src/StarfoxPlayerController.jsx).

    Modelling conventions.
    - A JavaScript Number is idealised as a rational ([Q]); [===] on numbers is
      [Qeq_bool], [<] is [Qltb].  [NaN] and the infinities are not modelled.
      The rounding of IEEE doubles is modelled where a statement depends on
      it (section Rounding): by a rounding function applied to the result of
      every operation, and on binary64 itself.
    - [Math.sqrt] and the methods of the three.js curve ([getPointAt],
      [getLength]) belong to the host; they are the fields of the class [Host].
      The clock ([Date.now()]), the frame delta and [Math.random()] are inputs
      of a frame, the fields of [Env.t].
    - A React state variable is read from the closure of the last render and
      written through a queue of updaters, applied in order; a ref is read and
      written in place.  One render is taken to happen after every frame.
    - The scene graph (meshes, camera, lights) and the HUD are the renderer's
      and are not part of the store. *)

From Stdlib Require Import QArith Qabs Qround Lqa Lia List Bool String.
From Corelib Require PrimFloat FloatOps SpecFloat.
Import ListNotations.
Open Scope Q_scope.

(* ------------------------------------------------------------------------- *)
(** ** Numbers *)

Definition Qltb (x y : Q) : bool := negb (Qle_bool y x).
Definition Qgtb (x y : Q) : bool := Qltb y x.
Definition Qgeb (x y : Q) : bool := Qle_bool y x.

(** [a || b] on numbers: [0] is the falsy number. *)
Definition num_or (a b : Q) : Q := if Qeq_bool a 0 then b else a.

Module Math.
Definition max (a b : Q) : Q := if Qle_bool a b then b else a.
Definition min (a b : Q) : Q := if Qle_bool a b then a else b.
Definition abs (a : Q) : Q := Qabs a.
(** [Math.PI] is the double nearest to pi, a dyadic rational. *)
Definition PI : Q := 884279719003555 # 281474976710656.
End Math.

Module MathUtils.
(** three.js: [clamp(value, min, max) = Math.max(min, Math.min(max, value))]. *)
Definition clamp (value lo hi : Q) : Q := Math.max lo (Math.min hi value).
(** three.js: [lerp(x, y, t) = (1 - t) * x + t * y]. *)
Definition lerp (x y t : Q) : Q := (1 - t) * x + t * y.
End MathUtils.

(* ------------------------------------------------------------------------- *)
(** ** Vectors *)

Module Vector3.
Record t : Type := mk { x : Q; y : Q; z : Q }.

Definition subVectors (a b : t) : t := mk (x a - x b) (y a - y b) (z a - z b).
Definition add (a b : t) : t := mk (x a + x b) (y a + y b) (z a + z b).
Definition multiplyScalar (v : t) (s : Q) : t := mk (x v * s) (y v * s) (z v * s).
Definition divideScalar (v : t) (s : Q) : t := multiplyScalar v (1 / s).
Definition lengthSq (v : t) : Q := x v * x v + y v * y v + z v * z v.
Definition dot (a b : t) : Q := x a * x b + y a * y b + z a * z b.
(** [a.lerp(b, alpha)]: each component moves by [alpha] of the gap. *)
Definition lerp (a b : t) (alpha : Q) : t :=
  mk (x a + (x b - x a) * alpha) (y a + (y b - y a) * alpha) (z a + (z b - z a) * alpha).
(** Component-wise numeric equality. *)
Definition eqv (a b : t) : Prop := x a == x b /\ y a == y b /\ z a == z b.
End Vector3.

Module Euler.
Record t : Type := mk { x : Q; y : Q; z : Q }.
End Euler.

Module XY.
Record t : Type := mk { x : Q; y : Q }.
End XY.

(* ------------------------------------------------------------------------- *)
(** ** CONSTANTS & CONFIGURATION *)

Module CONFIG.
Definition MOVE_SPEED : Q := 8.
Definition MOVE_BOUNDS : XY.t := XY.mk 12 8.
Definition FORWARD_SPEED : Q := 15.
Definition BOOST_SPEED : Q := 35.
Definition BOOST_DURATION : Q := 2000.
Definition BOOST_COOLDOWN : Q := 5000.
Definition DODGE_DURATION : Q := 600.
Definition DODGE_COOLDOWN : Q := 3000.
Definition DODGE_AGILITY_MULT : Q := 18 # 10.
Definition FIRE_RATE : Q := 100.
Definition PROJECTILE_SPEED : Q := 80.
Definition PROJECTILE_LIFETIME : Q := 2000.
Definition SHIP_TILT_FACTOR : Q := 3 # 10.
Definition RETICLE_DISTANCE : Q := 50.
End CONFIG.

(* ------------------------------------------------------------------------- *)
(** ** INPUT MANAGER HOOK *)

Module Keys.
Record t : Type := mk {
  up : bool; down : bool; left : bool; right : bool;
  boost : bool; dodge : bool; fire : bool }.
Definition initial : t := mk false false false false false false false.
End Keys.

Module Buttons.
(** An absent property of [buttons: {}] is falsy: it reads as [false]. *)
Record t : Type := mk { boost : bool; dodge : bool; fire : bool }.
Definition initial : t := mk false false false.
End Buttons.

Module Gamepad.
Record t : Type := mk { leftStick : XY.t; rightStick : XY.t; buttons : Buttons.t }.
Definition initial : t := mk (XY.mk 0 0) (XY.mk 0 0) Buttons.initial.
End Gamepad.

Module Input.
Record t : Type := mk {
  moveX : Q; moveY : Q; aimX : Q; aimY : Q;
  boost : bool; dodge : bool; fire : bool }.
End Input.

(** [handleMouseMove]: the pointer in viewport-relative coordinates. *)
Definition handleMouseMove (clientX clientY innerWidth innerHeight : Q) : XY.t :=
  XY.mk ((clientX / innerWidth) * 2 - 1) (- (clientY / innerHeight) * 2 + 1).

(** [pollGamepad]: with a first pad connected, its axes and buttons (missing
    entries read as [0] and [false]); without one the last sample stays. *)
Definition pollGamepad (gp : option (list Q * list bool)) (last : Gamepad.t)
    : Gamepad.t :=
  match gp with
  | Some (axes, pressed) =>
      Gamepad.mk
        (XY.mk (num_or (nth 0 axes 0) 0) (num_or (nth 1 axes 0) 0))
        (XY.mk (num_or (nth 2 axes 0) 0) (num_or (nth 3 axes 0) 0))
        (Buttons.mk (nth 7 pressed false || false)
                    (nth 4 pressed false || nth 5 pressed false || false)
                    (nth 6 pressed false || false))
  | None => last
  end.

Definition deadzone : Q := 15 # 100.

Definition applyDeadzone (val : Q) : Q :=
  if Qltb (Math.abs val) deadzone then 0 else val.

(** The [input] memo of [useInputManager]. *)
Definition useInputManager (keys : Keys.t) (mouse : XY.t) (gp : Gamepad.t) : Input.t :=
  Input.mk
    (num_or (applyDeadzone (num_or (XY.x (Gamepad.leftStick gp)) 0))
            (if Keys.left keys then -1 else if Keys.right keys then 1 else 0))
    (num_or (applyDeadzone (- (num_or (XY.y (Gamepad.leftStick gp)) 0)))
            (if Keys.up keys then 1 else if Keys.down keys then -1 else 0))
    (num_or (applyDeadzone (num_or (XY.x (Gamepad.rightStick gp)) 0)) (XY.x mouse))
    (num_or (applyDeadzone (- (num_or (XY.y (Gamepad.rightStick gp)) 0))) (XY.y mouse))
    (Keys.boost keys || Buttons.boost (Gamepad.buttons gp) || false)
    (Keys.dodge keys || Buttons.dodge (Gamepad.buttons gp) || false)
    (Keys.fire keys || Buttons.fire (Gamepad.buttons gp) || false).

(* ------------------------------------------------------------------------- *)
(** ** SPLINE PATH *)

Module CatmullRomCurve3.
Record t : Type := mk {
  points : list Vector3.t; closed : bool; curveType : string; tension : Q }.
End CatmullRomCurve3.

(** The outcome of evaluating an expression: a value, or a thrown error. *)
Inductive Completion (A : Type) : Type :=
| Normal (a : A)
| Throw (name : string).
Arguments Normal {A} a.
Arguments Throw {A} name.

(** [new CatmullRomCurve3(points, closed, curveType, tension)]: the three.js
    constructor stores its four arguments and checks nothing. *)
Definition new_CatmullRomCurve3 (points : list Vector3.t) (closed : bool)
    (curveType : string) (tension : Q) : Completion CatmullRomCurve3.t :=
  Normal (CatmullRomCurve3.mk points closed curveType tension).

Definition createLevelSpline : Completion CatmullRomCurve3.t :=
  let points := [
    Vector3.mk 0 0 0;
    Vector3.mk 0 2 (-100);
    Vector3.mk 10 5 (-200);
    Vector3.mk (-5) 3 (-300);
    Vector3.mk 0 8 (-400);
    Vector3.mk 15 4 (-500);
    Vector3.mk (-10) 6 (-600);
    Vector3.mk 0 2 (-700);
    Vector3.mk 5 10 (-800);
    Vector3.mk 0 5 (-1000)
  ] in
  new_CatmullRomCurve3 points false "catmullrom" (1 # 2).

(** What the controller takes from its host: [Math.sqrt] and the sampling
    methods of the three.js curve. *)
Class Host : Type := {
  Math_sqrt : Q -> Q;
  getPointAt : CatmullRomCurve3.t -> Q -> Vector3.t;
  getLength : CatmullRomCurve3.t -> Q }.

(** [v.length()] and [v.normalize()] of three.js:
    [normalize() = divideScalar(length() || 1)]. *)
Definition Vector3_length `{Host} (v : Vector3.t) : Q := Math_sqrt (Vector3.lengthSq v).
Definition Vector3_normalize `{Host} (v : Vector3.t) : Vector3.t :=
  Vector3.divideScalar v (num_or (Vector3_length v) 1).

(* ------------------------------------------------------------------------- *)
(** ** PROJECTILE COMPONENT *)

(** An entry of the [projectiles] array of the controller. *)
Module Projectile.
Record t : Type := mk { id : Q; position : Vector3.t; direction : Vector3.t }.
End Projectile.

(** A mounted [<Projectile>]: its props and its [startTime] ref.  The mesh is
    the renderer's object; its position is not part of the state kept here. *)
Module ProjectileC.
Record t : Type := mk { id : Q; direction : Vector3.t; startTime : Q }.
End ProjectileC.

(** The displacement line of the component's frame callback:
    [position.add(direction.clone().multiplyScalar(PROJECTILE_SPEED * delta))]. *)
Definition Projectile_advance (position direction : Vector3.t) (delta : Q) : Vector3.t :=
  Vector3.add position (Vector3.multiplyScalar direction (CONFIG.PROJECTILE_SPEED * delta)).

(** The expiry test of the component's frame callback. *)
Definition Projectile_expired (p : ProjectileC.t) (now : Q) : bool :=
  Qgtb (now - ProjectileC.startTime p) CONFIG.PROJECTILE_LIFETIME.

(** The projectiles' callbacks of one frame, as a function of the array: each
    expired component filters its own id out. *)
Definition expireAll (comps : list ProjectileC.t) (now : Q)
    (l : list Projectile.t) : list Projectile.t :=
  fold_left
    (fun l p =>
       if Projectile_expired p now
       then filter (fun q => negb (Qeq_bool (Projectile.id q) (ProjectileC.id p))) l
       else l)
    comps l.

(* ------------------------------------------------------------------------- *)
(** ** MAIN GAME CONTROLLER: its store *)

(** The state variables ([useState]), the refs ([useRef]) and the mounted
    projectile components of one [GameController]. *)
Module Store.
Record t : Type := mk {
  spline : CatmullRomCurve3.t;
  splineProgress : Q;
  localOffset : XY.t;
  projectiles : list Projectile.t;
  boostCooldown : Q;
  boostActive : bool;
  dodgeCooldown : Q;
  isRolling : bool;
  rollProgress : Q;
  isInvulnerable : bool;
  currentSpeed : Q;
  lastFireTime : Q;
  boostStartTime : Q;
  dodgeStartTime : Q;
  shipRotation : Euler.t;
  targetRotation : Euler.t;
  mounted : list ProjectileC.t }.
Definition with_splineProgress (v : Q) (s : t) : t :=
  mk (spline s) v (localOffset s) (projectiles s) (boostCooldown s) (boostActive s) (dodgeCooldown s) (isRolling s) (rollProgress s) (isInvulnerable s) (currentSpeed s) (lastFireTime s) (boostStartTime s) (dodgeStartTime s) (shipRotation s) (targetRotation s) (mounted s).
Definition with_localOffset (v : XY.t) (s : t) : t :=
  mk (spline s) (splineProgress s) v (projectiles s) (boostCooldown s) (boostActive s) (dodgeCooldown s) (isRolling s) (rollProgress s) (isInvulnerable s) (currentSpeed s) (lastFireTime s) (boostStartTime s) (dodgeStartTime s) (shipRotation s) (targetRotation s) (mounted s).
Definition with_projectiles (v : list Projectile.t) (s : t) : t :=
  mk (spline s) (splineProgress s) (localOffset s) v (boostCooldown s) (boostActive s) (dodgeCooldown s) (isRolling s) (rollProgress s) (isInvulnerable s) (currentSpeed s) (lastFireTime s) (boostStartTime s) (dodgeStartTime s) (shipRotation s) (targetRotation s) (mounted s).
Definition with_boostCooldown (v : Q) (s : t) : t :=
  mk (spline s) (splineProgress s) (localOffset s) (projectiles s) v (boostActive s) (dodgeCooldown s) (isRolling s) (rollProgress s) (isInvulnerable s) (currentSpeed s) (lastFireTime s) (boostStartTime s) (dodgeStartTime s) (shipRotation s) (targetRotation s) (mounted s).
Definition with_boostActive (v : bool) (s : t) : t :=
  mk (spline s) (splineProgress s) (localOffset s) (projectiles s) (boostCooldown s) v (dodgeCooldown s) (isRolling s) (rollProgress s) (isInvulnerable s) (currentSpeed s) (lastFireTime s) (boostStartTime s) (dodgeStartTime s) (shipRotation s) (targetRotation s) (mounted s).
Definition with_dodgeCooldown (v : Q) (s : t) : t :=
  mk (spline s) (splineProgress s) (localOffset s) (projectiles s) (boostCooldown s) (boostActive s) v (isRolling s) (rollProgress s) (isInvulnerable s) (currentSpeed s) (lastFireTime s) (boostStartTime s) (dodgeStartTime s) (shipRotation s) (targetRotation s) (mounted s).
Definition with_isRolling (v : bool) (s : t) : t :=
  mk (spline s) (splineProgress s) (localOffset s) (projectiles s) (boostCooldown s) (boostActive s) (dodgeCooldown s) v (rollProgress s) (isInvulnerable s) (currentSpeed s) (lastFireTime s) (boostStartTime s) (dodgeStartTime s) (shipRotation s) (targetRotation s) (mounted s).
Definition with_rollProgress (v : Q) (s : t) : t :=
  mk (spline s) (splineProgress s) (localOffset s) (projectiles s) (boostCooldown s) (boostActive s) (dodgeCooldown s) (isRolling s) v (isInvulnerable s) (currentSpeed s) (lastFireTime s) (boostStartTime s) (dodgeStartTime s) (shipRotation s) (targetRotation s) (mounted s).
Definition with_isInvulnerable (v : bool) (s : t) : t :=
  mk (spline s) (splineProgress s) (localOffset s) (projectiles s) (boostCooldown s) (boostActive s) (dodgeCooldown s) (isRolling s) (rollProgress s) v (currentSpeed s) (lastFireTime s) (boostStartTime s) (dodgeStartTime s) (shipRotation s) (targetRotation s) (mounted s).
Definition with_currentSpeed (v : Q) (s : t) : t :=
  mk (spline s) (splineProgress s) (localOffset s) (projectiles s) (boostCooldown s) (boostActive s) (dodgeCooldown s) (isRolling s) (rollProgress s) (isInvulnerable s) v (lastFireTime s) (boostStartTime s) (dodgeStartTime s) (shipRotation s) (targetRotation s) (mounted s).
Definition with_lastFireTime (v : Q) (s : t) : t :=
  mk (spline s) (splineProgress s) (localOffset s) (projectiles s) (boostCooldown s) (boostActive s) (dodgeCooldown s) (isRolling s) (rollProgress s) (isInvulnerable s) (currentSpeed s) v (boostStartTime s) (dodgeStartTime s) (shipRotation s) (targetRotation s) (mounted s).
Definition with_boostStartTime (v : Q) (s : t) : t :=
  mk (spline s) (splineProgress s) (localOffset s) (projectiles s) (boostCooldown s) (boostActive s) (dodgeCooldown s) (isRolling s) (rollProgress s) (isInvulnerable s) (currentSpeed s) (lastFireTime s) v (dodgeStartTime s) (shipRotation s) (targetRotation s) (mounted s).
Definition with_dodgeStartTime (v : Q) (s : t) : t :=
  mk (spline s) (splineProgress s) (localOffset s) (projectiles s) (boostCooldown s) (boostActive s) (dodgeCooldown s) (isRolling s) (rollProgress s) (isInvulnerable s) (currentSpeed s) (lastFireTime s) (boostStartTime s) v (shipRotation s) (targetRotation s) (mounted s).
Definition with_shipRotation (v : Euler.t) (s : t) : t :=
  mk (spline s) (splineProgress s) (localOffset s) (projectiles s) (boostCooldown s) (boostActive s) (dodgeCooldown s) (isRolling s) (rollProgress s) (isInvulnerable s) (currentSpeed s) (lastFireTime s) (boostStartTime s) (dodgeStartTime s) v (targetRotation s) (mounted s).
Definition with_targetRotation (v : Euler.t) (s : t) : t :=
  mk (spline s) (splineProgress s) (localOffset s) (projectiles s) (boostCooldown s) (boostActive s) (dodgeCooldown s) (isRolling s) (rollProgress s) (isInvulnerable s) (currentSpeed s) (lastFireTime s) (boostStartTime s) (dodgeStartTime s) (shipRotation s) v (mounted s).
Definition with_mounted (v : list ProjectileC.t) (s : t) : t :=
  mk (spline s) (splineProgress s) (localOffset s) (projectiles s) (boostCooldown s) (boostActive s) (dodgeCooldown s) (isRolling s) (rollProgress s) (isInvulnerable s) (currentSpeed s) (lastFireTime s) (boostStartTime s) (dodgeStartTime s) (shipRotation s) (targetRotation s) v.
End Store.

(** Values handed to the state sink. *)
Inductive JSValue : Type :=
| VNumber (q : Q)
| VBoolean (b : bool)
| VVector3 (v : Vector3.t)
| VEuler (e : Euler.t)
| VArray (l : list Projectile.t).

(** An object literal: its properties in source order. *)
Definition JSObject : Type := list (string * JSValue).

(** What one frame reads from outside the component: the clock ([Date.now()]
    for the callbacks of the frame, and again when the following render
    mounts new components), the frame delta in seconds, [Math.random()], the
    devices as of the last render, and whether the [onStateUpdate] prop is
    given. *)
Module Env.
Record t : Type := mk {
  now : Q; delta : Q; random : Q; renderNow : Q;
  keys : Keys.t; mouse : XY.t; gamepad : Gamepad.t;
  onStateUpdate : bool }.
End Env.

(** *** The frame monad: the store under construction *)

Definition M (A : Type) : Type := Store.t -> A * Store.t.
Definition ret {A : Type} (a : A) : M A := fun s => (a, s).
Definition bind {A B : Type} (m : M A) (k : A -> M B) : M B :=
  fun s => let (a, s') := m s in k a s'.
Definition when (b : bool) (m : M unit) : M unit := if b then m else ret tt.

Notation "x <- m ;; k" := (bind m (fun x => k))
  (at level 61, m at next level, right associativity).
Notation "m ;; k" := (bind m (fun _ => k))
  (at level 61, right associativity).

(** A state setter called with an updater; [set (fun _ => v)] is the call
    with a plain value. *)
Definition setSplineProgress (u : Q -> Q) : M unit :=
  fun s => (tt, Store.with_splineProgress (u (Store.splineProgress s)) s).
Definition setLocalOffset (u : XY.t -> XY.t) : M unit :=
  fun s => (tt, Store.with_localOffset (u (Store.localOffset s)) s).
Definition setProjectiles (u : list Projectile.t -> list Projectile.t) : M unit :=
  fun s => (tt, Store.with_projectiles (u (Store.projectiles s)) s).
Definition setBoostCooldown (u : Q -> Q) : M unit :=
  fun s => (tt, Store.with_boostCooldown (u (Store.boostCooldown s)) s).
Definition setBoostActive (v : bool) : M unit :=
  fun s => (tt, Store.with_boostActive v s).
Definition setDodgeCooldown (u : Q -> Q) : M unit :=
  fun s => (tt, Store.with_dodgeCooldown (u (Store.dodgeCooldown s)) s).
Definition setIsRolling (v : bool) : M unit :=
  fun s => (tt, Store.with_isRolling v s).
Definition setRollProgress (v : Q) : M unit :=
  fun s => (tt, Store.with_rollProgress v s).
Definition setIsInvulnerable (v : bool) : M unit :=
  fun s => (tt, Store.with_isInvulnerable v s).
Definition setCurrentSpeed (v : Q) : M unit :=
  fun s => (tt, Store.with_currentSpeed v s).

(** Refs: read and written in place. *)
Definition current {A : Type} (field : Store.t -> A) : M A := fun s => (field s, s).
Definition assign {A : Type} (upd : A -> Store.t -> Store.t) (v : A) : M unit :=
  fun s => (tt, upd v s).

(* ------------------------------------------------------------------------- *)
(** ** MAIN GAME CONTROLLER *)

Section GameController.
Context `{Host}.

(** The store of a freshly mounted controller. *)
Definition initialStore (spline : CatmullRomCurve3.t) : Store.t :=
  Store.mk spline 0 (XY.mk 0 0) [] 0 false 0 false 0 false CONFIG.FORWARD_SPEED
           0 0 0 (Euler.mk 0 Math.PI 0) (Euler.mk 0 Math.PI 0) [].

(** Mounting: the [spline] memo runs [createLevelSpline]. *)
Definition GameController_mount : Completion Store.t :=
  match createLevelSpline with
  | Normal spline => Normal (initialStore spline)
  | Throw name => Throw name
  end.

(** *** The positions computed at render *)

(** The fraction the curve is sampled at. *)
Definition splineFraction (c : Store.t) : Q :=
  Math.min (Store.splineProgress c) (999 # 1000).

Definition splinePosition (c : Store.t) : Vector3.t :=
  getPointAt (Store.spline c) (splineFraction c).

Definition shipPosition (c : Store.t) : Vector3.t :=
  Vector3.mk
    (Vector3.x (splinePosition c) + XY.x (Store.localOffset c))
    (Vector3.y (splinePosition c) + XY.y (Store.localOffset c))
    (Vector3.z (splinePosition c)).

Definition reticlePosition (c : Store.t) (input : Input.t) : Vector3.t :=
  Vector3.mk
    (Vector3.x (shipPosition c) + Input.aimX input * 15)
    (Vector3.y (shipPosition c) + Input.aimY input * 10)
    (Vector3.z (shipPosition c) - CONFIG.RETICLE_DISTANCE).

(** *** Fire projectile *)

Definition fireProjectile (shipPosition reticlePosition : Vector3.t)
    (now random : Q) : M unit :=
  lastFire <- current Store.lastFireTime ;;
  if Qltb (now - lastFire) CONFIG.FIRE_RATE then ret tt
  else
    assign Store.with_lastFireTime now ;;
    let direction :=
      Vector3_normalize (Vector3.subVectors reticlePosition shipPosition) in
    let newProjectile :=
      Projectile.mk (now + random) shipPosition direction in
    setProjectiles (fun prev => prev ++ [newProjectile]).

(** *** Remove projectile *)

Definition removeProjectile (id : Q) : M unit :=
  setProjectiles (filter (fun p => negb (Qeq_bool (Projectile.id p) id))).

(** *** Main game loop: the frame callback of the controller.
    [c] is the store as of the last render (the closure); state variables are
    read from [c], refs from the store being built.  The callback is cut at
    the comments that head its parts in the source. *)

(* Update cooldowns *)
Definition updateCooldowns (c : Store.t) (delta : Q) : M unit :=
  when (Qgtb (Store.boostCooldown c) 0)
    (setBoostCooldown (fun prev => Math.max 0 (prev - delta * 1000))) ;;
  when (Qgtb (Store.dodgeCooldown c) 0)
    (setDodgeCooldown (fun prev => Math.max 0 (prev - delta * 1000))).

(* Handle boost *)
Definition handleBoost (c : Store.t) (input : Input.t) (now : Q) : M unit :=
  when (Input.boost input && Qeq_bool (Store.boostCooldown c) 0
        && negb (Store.boostActive c))
    (setBoostActive true ;;
     assign Store.with_boostStartTime now) ;;
  when (Store.boostActive c)
    (boostStart <- current Store.boostStartTime ;;
     when (Qgtb (now - boostStart) CONFIG.BOOST_DURATION)
       (setBoostActive false ;;
        setBoostCooldown (fun _ => CONFIG.BOOST_COOLDOWN))).

(* Handle dodge/barrel roll *)
Definition handleDodge (c : Store.t) (input : Input.t) (now : Q) : M unit :=
  when (Input.dodge input && Qeq_bool (Store.dodgeCooldown c) 0
        && negb (Store.isRolling c))
    (setIsRolling true ;;
     setIsInvulnerable true ;;
     assign Store.with_dodgeStartTime now ;;
     setRollProgress 0) ;;
  when (Store.isRolling c)
    (dodgeStart <- current Store.dodgeStartTime ;;
     let rollElapsed := now - dodgeStart in
     let progress := Math.min (rollElapsed / CONFIG.DODGE_DURATION) 1 in
     setRollProgress progress ;;
     when (Qgeb progress 1)
       (setIsRolling false ;;
        setIsInvulnerable false ;;
        setDodgeCooldown (fun _ => CONFIG.DODGE_COOLDOWN))).

(* Calculate speed *)
Definition calculateSpeed (c : Store.t) : M Q :=
  let speed :=
    if Store.boostActive c then CONFIG.BOOST_SPEED else CONFIG.FORWARD_SPEED in
  setCurrentSpeed speed ;;
  ret speed.

(* Update spline progress *)
Definition updateSplineProgress (c : Store.t) (speed delta : Q) : M unit :=
  let splineLength := getLength (Store.spline c) in
  let progressDelta := (speed * delta) / splineLength in
  setSplineProgress (fun prev =>
    let next := prev + progressDelta in
    if Qgeb next 1 then 0 else next).

(* Update local offset (movement on the plane) *)
Definition updateLocalOffset (c : Store.t) (input : Input.t) (delta : Q) : M unit :=
  let agilityMult :=
    if Store.isRolling c then CONFIG.DODGE_AGILITY_MULT else 1 in
  setLocalOffset (fun prev =>
    XY.mk
      (MathUtils.clamp
         (XY.x prev + Input.moveX input * CONFIG.MOVE_SPEED * delta * agilityMult)
         (- XY.x CONFIG.MOVE_BOUNDS)
         (XY.x CONFIG.MOVE_BOUNDS))
      (MathUtils.clamp
         (XY.y prev + Input.moveY input * CONFIG.MOVE_SPEED * delta * agilityMult)
         (- XY.y CONFIG.MOVE_BOUNDS)
         (XY.y CONFIG.MOVE_BOUNDS))).

(* Update ship rotation (tilt based on movement) *)
Definition updateShipRotation (input : Input.t) : M unit :=
  assign Store.with_targetRotation
    (Euler.mk (- Input.moveY input * CONFIG.SHIP_TILT_FACTOR)
              Math.PI
              (Input.moveX input * CONFIG.SHIP_TILT_FACTOR * (15 # 10))) ;;
  ship <- current Store.shipRotation ;;
  target <- current Store.targetRotation ;;
  assign Store.with_shipRotation
    (Euler.mk (MathUtils.lerp (Euler.x ship) (Euler.x target) (1 # 10))
              (Euler.y ship)
              (Euler.z ship)) ;;
  ship <- current Store.shipRotation ;;
  assign Store.with_shipRotation
    (Euler.mk (Euler.x ship)
              (Euler.y ship)
              (MathUtils.lerp (Euler.z ship) (Euler.z target) (1 # 10))).

(* Handle firing *)
Definition handleFiring (c : Store.t) (input : Input.t) (now random : Q) : M unit :=
  when (Input.fire input)
    (fireProjectile (shipPosition c) (reticlePosition c input) now random).

(* Report state: the argument of [onStateUpdate], when the prop is given. *)
Definition reportState (c : Store.t) (e : Env.t) : M (option JSObject) :=
  if Env.onStateUpdate e then
    ret (Some [ ("position"%string, VVector3 (shipPosition c));
                ("isInvulnerable"%string, VBoolean (Store.isInvulnerable c));
                ("boostActive"%string, VBoolean (Store.boostActive c));
                ("speed"%string, VNumber (Store.currentSpeed c)) ])
  else ret None.

(** The callback.  Every callback of one frame is taken to read the same
    clock value; the camera that follows the ship is the renderer's object
    and is not kept here. *)
Definition GameController_useFrame (c : Store.t) (e : Env.t) (input : Input.t)
    : M (option JSObject) :=
  let now := Env.now e in
  let delta := Env.delta e in
  updateCooldowns c delta ;;
  handleBoost c input now ;;
  handleDodge c input now ;;
  speed <- calculateSpeed c ;;
  updateSplineProgress c speed delta ;;
  updateLocalOffset c input delta ;;
  updateShipRotation input ;;
  handleFiring c input now (Env.random e) ;;
  reportState c e.

(** *** The frame callback of a mounted projectile: it reports its expiry
    through [onExpire = removeProjectile]. *)
Definition Projectile_useFrame (p : ProjectileC.t) (e : Env.t) : M unit :=
  when (Projectile_expired p (Env.now e))
    (removeProjectile (ProjectileC.id p)).

Fixpoint forEach {A : Type} (f : A -> M unit) (l : list A) : M unit :=
  match l with
  | [] => ret tt
  | a :: l' => f a ;; forEach f l'
  end.

(** *** Render: the projectile components follow the [projectiles] array by
    key; a component that stays keeps its [startTime], a new one reads the
    clock as it mounts. *)
Definition renderProjectile (old : list ProjectileC.t) (renderNow : Q)
    (proj : Projectile.t) : ProjectileC.t :=
  match find (fun k => Qeq_bool (ProjectileC.id k) (Projectile.id proj)) old with
  | Some k => ProjectileC.mk (Projectile.id proj) (Projectile.direction proj)
                             (ProjectileC.startTime k)
  | None => ProjectileC.mk (Projectile.id proj) (Projectile.direction proj) renderNow
  end.

Definition render (renderNow : Q) : M unit :=
  fun s => (tt, Store.with_mounted
                  (map (renderProjectile (Store.mounted s) renderNow)
                       (Store.projectiles s)) s).

(** The [input] the callbacks of a frame see: the memo of the last render. *)
Definition inputOf (e : Env.t) : Input.t :=
  useInputManager (Env.keys e) (Env.mouse e) (Env.gamepad e).

(** *** One frame: the callbacks in subscription order (the controller, then
    the projectiles in mounting order), then the render. *)
Definition frame (c : Store.t) (e : Env.t) : option JSObject * Store.t :=
  let input := inputOf e in
  (report <- GameController_useFrame c e input ;;
   forEach (fun p => Projectile_useFrame p e) (Store.mounted c) ;;
   render (Env.renderNow e) ;;
   ret report) c.

Definition step (c : Store.t) (e : Env.t) : Store.t := snd (frame c e).
Definition emitted (c : Store.t) (e : Env.t) : option JSObject := fst (frame c e).

(** The stores the simulation can be in: the mounted one and whatever frames
    make of it. *)
Inductive reachable : Store.t -> Prop :=
| reachable_mount : forall s, GameController_mount = Normal s -> reachable s
| reachable_step : forall s e, reachable s -> reachable (step s e).

Definition run (s : Store.t) (es : list Env.t) : Store.t := fold_left step es s.

(** The store the controller's own callback leaves, before the projectiles'
    callbacks and the render. *)
Definition game (c : Store.t) (e : Env.t) : Store.t :=
  snd (GameController_useFrame c e (inputOf e) c).

(** *** The callback in closed form: the conditions it branches on, by name,
    and the store it leaves, field by field. *)

Definition boostStarts (c : Store.t) (input : Input.t) : bool :=
  Input.boost input && Qeq_bool (Store.boostCooldown c) 0 && negb (Store.boostActive c).

Definition boostEnds (c : Store.t) (now : Q) : bool :=
  Store.boostActive c && Qgtb (now - Store.boostStartTime c) CONFIG.BOOST_DURATION.

Definition dodgeStarts (c : Store.t) (input : Input.t) : bool :=
  Input.dodge input && Qeq_bool (Store.dodgeCooldown c) 0 && negb (Store.isRolling c).

Definition rollProgressAt (c : Store.t) (now : Q) : Q :=
  Math.min ((now - Store.dodgeStartTime c) / CONFIG.DODGE_DURATION) 1.

Definition dodgeEnds (c : Store.t) (now : Q) : bool :=
  Store.isRolling c && Qgeb (rollProgressAt c now) 1.

Definition fires (c : Store.t) (input : Input.t) (now : Q) : bool :=
  Input.fire input && negb (Qltb (now - Store.lastFireTime c) CONFIG.FIRE_RATE).

Definition speedOf (c : Store.t) : Q :=
  if Store.boostActive c then CONFIG.BOOST_SPEED else CONFIG.FORWARD_SPEED.

Definition decay (cooldown delta : Q) : Q := Math.max 0 (cooldown - delta * 1000).

Definition nextProgress (c : Store.t) (delta : Q) : Q :=
  let next :=
    Store.splineProgress c + (speedOf c * delta) / getLength (Store.spline c) in
  if Qgeb next 1 then 0 else next.

Definition nextOffset (c : Store.t) (input : Input.t) (delta : Q) : XY.t :=
  let agilityMult :=
    if Store.isRolling c then CONFIG.DODGE_AGILITY_MULT else 1 in
  XY.mk
    (MathUtils.clamp
       (XY.x (Store.localOffset c)
        + Input.moveX input * CONFIG.MOVE_SPEED * delta * agilityMult)
       (- XY.x CONFIG.MOVE_BOUNDS) (XY.x CONFIG.MOVE_BOUNDS))
    (MathUtils.clamp
       (XY.y (Store.localOffset c)
        + Input.moveY input * CONFIG.MOVE_SPEED * delta * agilityMult)
       (- XY.y CONFIG.MOVE_BOUNDS) (XY.y CONFIG.MOVE_BOUNDS)).

Definition newProjectile (c : Store.t) (input : Input.t) (now random : Q)
    : Projectile.t :=
  Projectile.mk (now + random) (shipPosition c)
    (Vector3_normalize
       (Vector3.subVectors (reticlePosition c input) (shipPosition c))).

Definition nextTarget (input : Input.t) : Euler.t :=
  Euler.mk (- Input.moveY input * CONFIG.SHIP_TILT_FACTOR)
           Math.PI
           (Input.moveX input * CONFIG.SHIP_TILT_FACTOR * (15 # 10)).

Definition gameClosed (c : Store.t) (e : Env.t) : Store.t :=
  let input := inputOf e in
  let now := Env.now e in
  let delta := Env.delta e in
  Store.mk
    (Store.spline c)
    (nextProgress c delta)
    (nextOffset c input delta)
    (if fires c input now
     then Store.projectiles c ++ [newProjectile c input now (Env.random e)]
     else Store.projectiles c)
    (if boostEnds c now then CONFIG.BOOST_COOLDOWN
     else if Qgtb (Store.boostCooldown c) 0 then decay (Store.boostCooldown c) delta
     else Store.boostCooldown c)
    (if boostEnds c now then false
     else if boostStarts c input then true else Store.boostActive c)
    (if dodgeEnds c now then CONFIG.DODGE_COOLDOWN
     else if Qgtb (Store.dodgeCooldown c) 0 then decay (Store.dodgeCooldown c) delta
     else Store.dodgeCooldown c)
    (if dodgeEnds c now then false
     else if dodgeStarts c input then true else Store.isRolling c)
    (if Store.isRolling c then rollProgressAt c now
     else if dodgeStarts c input then 0 else Store.rollProgress c)
    (if dodgeEnds c now then false
     else if dodgeStarts c input then true else Store.isInvulnerable c)
    (speedOf c)
    (if fires c input now then now else Store.lastFireTime c)
    (if boostStarts c input then now else Store.boostStartTime c)
    (if dodgeStarts c input then now else Store.dodgeStartTime c)
    (Euler.mk
       (MathUtils.lerp (Euler.x (Store.shipRotation c)) (Euler.x (nextTarget input)) (1 # 10))
       (Euler.y (Store.shipRotation c))
       (MathUtils.lerp (Euler.z (Store.shipRotation c)) (Euler.z (nextTarget input)) (1 # 10)))
    (nextTarget input)
    (Store.mounted c).

(** The array a frame leaves: the controller's, then the expiries. *)
Definition nextProjectiles (c : Store.t) (e : Env.t) : list Projectile.t :=
  expireAll (Store.mounted c) (Env.now e) (Store.projectiles (gameClosed c e)).

End GameController.

(** The level's curve and the store of the mounted controller
    ([createLevelSpline] returns normally: the second branch is never taken). *)
Definition levelSpline : CatmullRomCurve3.t :=
  match createLevelSpline with
  | Normal spline => spline
  | Throw _ => CatmullRomCurve3.mk [] false "" 0
  end.

Definition mounted0 : Store.t := initialStore levelSpline.

(* ------------------------------------------------------------------------- *)
(** ** The vocabulary of the statements *)

(** While an ability is active its cooldown is 0, and no cooldown is negative. *)
Definition abilities_ok (s : Store.t) : Prop :=
  (Store.boostActive s = true -> Store.boostCooldown s == 0) /\
  (Store.isRolling s = true -> Store.dodgeCooldown s == 0) /\
  0 <= Store.boostCooldown s /\ 0 <= Store.dodgeCooldown s.

(** The play area: each axis within its half-extent. *)
Definition withinBounds (o : XY.t) : Prop :=
  - XY.x CONFIG.MOVE_BOUNDS <= XY.x o <= XY.x CONFIG.MOVE_BOUNDS /\
  - XY.y CONFIG.MOVE_BOUNDS <= XY.y o <= XY.y CONFIG.MOVE_BOUNDS.

(** The store a fire attempt leaves. *)
Definition fired `{Host} (ship reticle : Vector3.t) (now random : Q)
    (s : Store.t) : Store.t :=
  snd (fireProjectile ship reticle now random s).

(** A frame sampled no later than [PROJECTILE_LIFETIME] after [T]. *)
Definition alive (T : Q) (e : Env.t) : Prop :=
  Env.now e - T <= CONFIG.PROJECTILE_LIFETIME.

(** [p] is in the array, has a component, and every component under its id
    started at [T]. *)
Definition tracked (s : Store.t) (p : Projectile.t) (T : Q) : Prop :=
  In p (Store.projectiles s) /\
  (exists k, In k (Store.mounted s) /\ ProjectileC.id k == Projectile.id p) /\
  (forall k, In k (Store.mounted s) -> ProjectileC.id k == Projectile.id p ->
             ProjectileC.startTime k = T).

(** In a reachable store the components follow the array: the render made
    them from it. *)
Definition rendered (s : Store.t) : Prop :=
  Store.mounted s = [] /\ Store.projectiles s = [] \/
  exists old t, Store.mounted s = map (renderProjectile old t) (Store.projectiles s).

(** [Math.random()] returns a number in [0, 1). *)
Definition fairRandom (e : Env.t) : Prop := 0 <= Env.random e < 1.

(** Ids are below the last shot plus one. *)
Definition idsBelow (s : Store.t) : Prop :=
  forall q, In q (Store.projectiles s) -> Projectile.id q < Store.lastFireTime s + 1.

(** No projectile has the id [x], and none will: [x] is below the last shot
    plus one. *)
Definition gone (s : Store.t) (x : Q) : Prop :=
  (forall q, In q (Store.projectiles s) -> ~ Projectile.id q == x) /\
  x < Store.lastFireTime s + 1.

(** The same frame with the boost request withdrawn on both devices. *)
Definition withoutBoost (e : Env.t) : Env.t :=
  Env.mk (Env.now e) (Env.delta e) (Env.random e) (Env.renderNow e)
    (Keys.mk (Keys.up (Env.keys e)) (Keys.down (Env.keys e))
             (Keys.left (Env.keys e)) (Keys.right (Env.keys e))
             false (Keys.dodge (Env.keys e)) (Keys.fire (Env.keys e)))
    (Env.mouse e)
    (Gamepad.mk (Gamepad.leftStick (Env.gamepad e))
                (Gamepad.rightStick (Env.gamepad e))
                (Buttons.mk false
                            (Buttons.dodge (Gamepad.buttons (Env.gamepad e)))
                            (Buttons.fire (Gamepad.buttons (Env.gamepad e)))))
    (Env.onStateUpdate e).

(* ------------------------------------------------------------------------- *)
(** ** A host and environments to run the model on *)

(** A square root that is exact on the rationals whose reduced numerator and
    denominator are squares, and a path that is a straight segment of length
    1000 along -z. *)
Definition demoSqrt (q : Q) : Q :=
  Z.sqrt (Qnum (Qred q)) # Pos.sqrt (Qden (Qred q)).

Definition demoHost : Host :=
  {| Math_sqrt := demoSqrt;
     getPointAt := fun _ t => Vector3.mk 0 0 (- (1000) * t);
     getLength := fun _ => 1000 |}.

(** Nothing pressed, the pad at rest, a 16 ms frame, the sink connected. *)
Definition idleEnv (now : Q) : Env.t :=
  Env.mk now (16 # 1000) (1 # 2) now Keys.initial (XY.mk 0 0) Gamepad.initial true.

Definition pressing (keys : Keys.t) (e : Env.t) : Env.t :=
  Env.mk (Env.now e) (Env.delta e) (Env.random e) (Env.renderNow e)
         keys (Env.mouse e) (Env.gamepad e) (Env.onStateUpdate e).

Definition lasting (delta : Q) (e : Env.t) : Env.t :=
  Env.mk (Env.now e) delta (Env.random e) (Env.renderNow e)
         (Env.keys e) (Env.mouse e) (Env.gamepad e) (Env.onStateUpdate e).

Definition boostKey : Keys.t := Keys.mk false false false false true false false.
Definition dodgeKey : Keys.t := Keys.mk false false false false false true false.
Definition fireKey : Keys.t := Keys.mk false false false false false false true.
Definition rightKey : Keys.t := Keys.mk false false false true false false false.

(** A shot on the first frame; the render after it, at 1005 ms, mounts the
    projectile. *)
Definition shot : Env.t :=
  Env.mk 1000 (16 # 1000) (1 # 2) 1005 fireKey (XY.mk 0 0) Gamepad.initial true.

Definition shotProjectile : Projectile.t :=
  newProjectile (H := demoHost) mounted0 (inputOf shot) 1000 (1 # 2).

Definition shotComponent : ProjectileC.t :=
  ProjectileC.mk (Projectile.id shotProjectile)
                 (Projectile.direction shotProjectile) 1005.

(* ------------------------------------------------------------------------- *)
(** ** Device events: the handlers of [useInputManager] *)

(** The actions a key can stand for: the values of [keyMap]. *)
Module Action.
Inductive t : Type := up | down | left | right | boost | dodge.
End Action.

(** [keyMap]: a key code that is not listed has no action. *)
Definition keyMap : list (string * Action.t) :=
  [ ("KeyW", Action.up); ("ArrowUp", Action.up);
    ("KeyS", Action.down); ("ArrowDown", Action.down);
    ("KeyA", Action.left); ("ArrowLeft", Action.left);
    ("KeyD", Action.right); ("ArrowRight", Action.right);
    ("ShiftLeft", Action.boost); ("ShiftRight", Action.boost);
    ("Space", Action.dodge);
    ("KeyE", Action.dodge) ]%string.

Definition keyMap_get (code : string) : option Action.t :=
  option_map snd (find (fun entry => String.eqb (fst entry) code) keyMap).

(** [{ ...k, [action]: v }]. *)
Definition setKey (action : Action.t) (v : bool) (k : Keys.t) : Keys.t :=
  match action with
  | Action.up =>
      Keys.mk v (Keys.down k) (Keys.left k) (Keys.right k)
              (Keys.boost k) (Keys.dodge k) (Keys.fire k)
  | Action.down =>
      Keys.mk (Keys.up k) v (Keys.left k) (Keys.right k)
              (Keys.boost k) (Keys.dodge k) (Keys.fire k)
  | Action.left =>
      Keys.mk (Keys.up k) (Keys.down k) v (Keys.right k)
              (Keys.boost k) (Keys.dodge k) (Keys.fire k)
  | Action.right =>
      Keys.mk (Keys.up k) (Keys.down k) (Keys.left k) v
              (Keys.boost k) (Keys.dodge k) (Keys.fire k)
  | Action.boost =>
      Keys.mk (Keys.up k) (Keys.down k) (Keys.left k) (Keys.right k)
              v (Keys.dodge k) (Keys.fire k)
  | Action.dodge =>
      Keys.mk (Keys.up k) (Keys.down k) (Keys.left k) (Keys.right k)
              (Keys.boost k) v (Keys.fire k)
  end.

(** [{ ...k, fire: v }]. *)
Definition setFire (v : bool) (k : Keys.t) : Keys.t :=
  Keys.mk (Keys.up k) (Keys.down k) (Keys.left k) (Keys.right k)
          (Keys.boost k) (Keys.dodge k) v.

Definition handleKeyDown (code : string) (k : Keys.t) : Keys.t :=
  match keyMap_get code with
  | Some action => setKey action true k
  | None => k
  end.

Definition handleKeyUp (code : string) (k : Keys.t) : Keys.t :=
  match keyMap_get code with
  | Some action => setKey action false k
  | None => k
  end.

Definition handleMouseDown (button : Z) (k : Keys.t) : Keys.t :=
  if Z.eqb button 0 then setFire true k else k.

Definition handleMouseUp (button : Z) (k : Keys.t) : Keys.t :=
  if Z.eqb button 0 then setFire false k else k.

(** Whether the key state holds an action. *)
Definition keyHeld (action : Action.t) (k : Keys.t) : bool :=
  match action with
  | Action.up => Keys.up k
  | Action.down => Keys.down k
  | Action.left => Keys.left k
  | Action.right => Keys.right k
  | Action.boost => Keys.boost k
  | Action.dodge => Keys.dodge k
  end.

(* ------------------------------------------------------------------------- *)
(** ** More vocabulary: ranges, a withdrawn request *)

Definition unit_range (v : Q) : Prop := -1 <= v <= 1.

(** Sticks and pointer as the browser reports them: within -1..1. *)
Definition devicesInRange (mouse : XY.t) (gp : Gamepad.t) : Prop :=
  unit_range (XY.x (Gamepad.leftStick gp)) /\ unit_range (XY.y (Gamepad.leftStick gp)) /\
  unit_range (XY.x (Gamepad.rightStick gp)) /\ unit_range (XY.y (Gamepad.rightStick gp)) /\
  unit_range (XY.x mouse) /\ unit_range (XY.y mouse).

(** The same frame with the dodge request withdrawn on both devices. *)
Definition withoutDodge (e : Env.t) : Env.t :=
  Env.mk (Env.now e) (Env.delta e) (Env.random e) (Env.renderNow e)
    (Keys.mk (Keys.up (Env.keys e)) (Keys.down (Env.keys e))
             (Keys.left (Env.keys e)) (Keys.right (Env.keys e))
             (Keys.boost (Env.keys e)) false (Keys.fire (Env.keys e)))
    (Env.mouse e)
    (Gamepad.mk (Gamepad.leftStick (Env.gamepad e))
                (Gamepad.rightStick (Env.gamepad e))
                (Buttons.mk (Buttons.boost (Gamepad.buttons (Env.gamepad e)))
                            false
                            (Buttons.fire (Gamepad.buttons (Env.gamepad e)))))
    (Env.onStateUpdate e).

(* ------------------------------------------------------------------------- *)
(** ** Rounding

    A JavaScript Number is an IEEE binary64 double, and every arithmetic
    operation returns the double nearest to its exact result.  Where a
    statement depends on it the operations are given twice more:
    - over the rationals with every result passed through a rounding function
      [rnd], of which only an error bound is assumed;
    - on binary64 itself ([PrimFloat]), to evaluate. *)

(** The update of one cooldown in the frame callback (lines 533-536 for the
    boost, 537-539 for the dodge), every operation rounded:
    [if (cooldown > 0) set(prev => Math.max(0, prev - delta * 1000))]. *)
Definition decayR (rnd : Q -> Q) (prev delta : Q) : Q :=
  Math.max 0 (rnd (prev - rnd (delta * 1000))).

Definition cooldownFrameR (rnd : Q -> Q) (cooldown delta : Q) : Q :=
  if Qgtb cooldown 0 then decayR rnd cooldown delta else cooldown.

(** No rounding: exact arithmetic. *)
Definition unrounded (t : Q) : Q := t.

(** A rounding to run the model on: to the nearest multiple of 2^-40, the
    spacing of the doubles between 4096 and 8192. *)
Definition roundToGrid (t : Q) : Q :=
  inject_Z (Qfloor (t * 1099511627776 + (1 # 2))) / 1099511627776.

(** [v.lengthSq()] and [v.normalize()] of three.js, every operation rounded:
    [x*x + y*y + z*z], then [multiplyScalar(1 / (Math.sqrt(lengthSq) || 1))]. *)
Definition Vector3_lengthSqR (rnd : Q -> Q) (v : Vector3.t) : Q :=
  rnd (rnd (rnd (Vector3.x v * Vector3.x v) + rnd (Vector3.y v * Vector3.y v))
       + rnd (Vector3.z v * Vector3.z v)).

Definition Vector3_normalizeR `{Host} (rnd : Q -> Q) (v : Vector3.t) : Vector3.t :=
  let s := num_or (Math_sqrt (Vector3_lengthSqR rnd v)) 1 in
  let inv := rnd (1 / s) in
  Vector3.mk (rnd (Vector3.x v * inv)) (rnd (Vector3.y v * inv))
             (rnd (Vector3.z v * inv)).

(** A rounding to run the model on: toward zero, by the relative error [u]. *)
Definition roundDown (u t : Q) : Q := t * (1 - u).

Fixpoint Qpow (w : Q) (k : nat) : Q :=
  match k with
  | O => 1
  | S k' => w * Qpow w k'
  end.

(** [b] is [a] up to [k] roundings: each is at least [w ^ k] times the other,
    for a factor [w] a little below 1. *)
Definition near (w : Q) (k : nat) (a b : Q) : Prop :=
  Qpow w k * a <= b /\ Qpow w k * b <= a.

(** The same operations on binary64. *)
Module Binary64.
Import PrimFloat.

(** The rational a finite double stands for (0 for the others). *)
Definition toQ (f : float) : Q :=
  match FloatOps.Prim2SF f with
  | SpecFloat.S754_finite s m e =>
      (if s then - (1) else 1) * inject_Z (Zpos m) * Qpower 2 e
  | _ => 0
  end.

(** [Math.max(0, x)]. *)
Definition Math_max0 (x : float) : float :=
  if is_nan x then x else if ltb 0%float x then x else 0%float.

(** Lines 533-539, one cooldown. *)
Definition cooldownFrame (cooldown delta : float) : float :=
  if ltb 0%float cooldown then Math_max0 (cooldown - delta * 1000)%float
  else cooldown.

Definition BOOST_COOLDOWN : float := 5000%float.
Definition DODGE_COOLDOWN : float := 3000%float.

(** The frame time at 60 and at 120 frames per second. *)
Definition delta60 : float := (1 / 60)%float.
Definition delta120 : float := (delta60 / 2)%float.

(** [x || 1]: 0 and NaN are falsy. *)
Definition or1 (x : float) : float :=
  if (eqb x 0%float || is_nan x)%bool then 1%float else x.

Record Vector3 : Type := vec { vx : float; vy : float; vz : float }.

Definition lengthSq (v : Vector3) : float :=
  (vx v * vx v + vy v * vy v + vz v * vz v)%float.

Definition normalize (v : Vector3) : Vector3 :=
  let inv := (1 / or1 (sqrt (lengthSq v)))%float in
  vec (vx v * inv)%float (vy v * inv)%float (vz v * inv)%float.

(** The squared length of a vector of doubles, computed exactly. *)
Definition exactLengthSq (v : Vector3) : Q :=
  toQ (vx v) * toQ (vx v) + toQ (vy v) * toQ (vy v) + toQ (vz v) * toQ (vz v).

(** The aim vector with the stick or the mouse full right: the reticle is 15
    to the right of the ship and [RETICLE_DISTANCE] ahead. *)
Definition aimRight : Vector3 := vec 15%float 0%float (-50)%float.

End Binary64.

(* ========================================================================= *)
(** * Properties *)

(** ** Comparisons, [Math.max], [Math.min], [clamp] *)

Lemma Qltb_lt x y : Qltb x y = true <-> x < y.
Proof.
  unfold Qltb. rewrite negb_true_iff.
  destruct (Qle_bool y x) eqn:E.
  - apply Qle_bool_iff in E. split; [discriminate | intro; lra].
  - split; [intros _ | reflexivity].
    destruct (Qlt_le_dec x y) as [H | H]; [exact H |].
    apply Qle_bool_iff in H. congruence.
Qed.

Lemma Qltb_ge x y : Qltb x y = false <-> y <= x.
Proof.
  unfold Qltb. rewrite negb_false_iff. apply Qle_bool_iff.
Qed.

Lemma Qle_bool_gt x y : Qle_bool x y = false <-> y < x.
Proof.
  rewrite <- Qltb_lt. unfold Qltb. now rewrite negb_true_iff.
Qed.

Lemma Qeq_bool_false x y : Qeq_bool x y = false <-> ~ x == y.
Proof.
  split; [apply Qeq_bool_neq |].
  intro H. destruct (Qeq_bool x y) eqn:E; [| reflexivity].
  apply Qeq_bool_iff in E. contradiction.
Qed.

(* ------------------------------------------------------------------------- *)
(** ** Proof automation *)

(** Turns every boolean comparison in sight into its proposition. *)
Ltac qprop :=
  repeat match goal with
    | H : Qltb _ _ = true |- _ => apply Qltb_lt in H
    | H : Qltb _ _ = false |- _ => apply Qltb_ge in H
    | H : Qgtb _ _ = true |- _ => apply Qltb_lt in H
    | H : Qgtb _ _ = false |- _ => apply Qltb_ge in H
    | H : Qgeb _ _ = true |- _ => apply Qle_bool_iff in H
    | H : Qgeb _ _ = false |- _ => apply Qle_bool_gt in H
    | H : Qle_bool _ _ = true |- _ => apply Qle_bool_iff in H
    | H : Qle_bool _ _ = false |- _ => apply Qle_bool_gt in H
    | H : Qeq_bool _ _ = true |- _ => apply Qeq_bool_iff in H
    | H : Qeq_bool _ _ = false |- _ => apply Qeq_bool_false in H
    end.

(** Case analysis on the conditions the goal branches on, innermost first. *)
Ltac qcase :=
  repeat match goal with
    | |- context [if ?c then _ else _] =>
        lazymatch c with
        | context [if _ then _ else _] => fail
        | _ => let E := fresh "E" in destruct c eqn:E
        end
    end.

Lemma max_spec a b : a <= Math.max a b /\ b <= Math.max a b /\
                     (Math.max a b == a \/ Math.max a b == b).
Proof. unfold Math.max. qcase; qprop; repeat split; try lra; auto with qarith. Qed.

Lemma min_spec a b : Math.min a b <= a /\ Math.min a b <= b /\
                     (Math.min a b == a \/ Math.min a b == b).
Proof. unfold Math.min. qcase; qprop; repeat split; try lra; auto with qarith. Qed.

Lemma clamp_bounds v lo hi : lo <= hi -> lo <= MathUtils.clamp v lo hi <= hi.
Proof.
  intro H. unfold MathUtils.clamp, Math.max, Math.min.
  qcase; qprop; lra.
Qed.

Lemma clamp_inside v lo hi : lo <= v <= hi -> MathUtils.clamp v lo hi == v.
Proof.
  intro H. unfold MathUtils.clamp, Math.max, Math.min.
  qcase; qprop; lra.
Qed.

Lemma abs_le x y : Qabs x <= y <-> - y <= x <= y.
Proof. apply Qabs_Qle_condition. Qed.

Lemma max0_cases x :
  (x <= 0 /\ Math.max 0 x = 0) \/ (0 <= x /\ Math.max 0 x = x).
Proof.
  unfold Math.max.
  destruct (Qle_bool 0 x) eqn:E; qprop; [right | left]; split; auto; lra.
Qed.

(* ------------------------------------------------------------------------- *)
(** ** The frame callback, part by part *)

Ltac run_block :=
  cbv [when bind ret current assign setBoostCooldown setDodgeCooldown
       setBoostActive setIsRolling setIsInvulnerable setRollProgress
       setCurrentSpeed setSplineProgress setLocalOffset setProjectiles];
  cbn [Store.spline Store.splineProgress Store.localOffset Store.projectiles
       Store.boostCooldown Store.boostActive Store.dodgeCooldown Store.isRolling
       Store.rollProgress Store.isInvulnerable Store.currentSpeed
       Store.lastFireTime Store.boostStartTime Store.dodgeStartTime
       Store.shipRotation Store.targetRotation Store.mounted].

Section Blocks.
Context `{Host}.

Lemma updateCooldowns_run c delta s :
  updateCooldowns c delta s =
  (tt, Store.with_dodgeCooldown
         (if Qgtb (Store.dodgeCooldown c) 0 then decay (Store.dodgeCooldown s) delta
          else Store.dodgeCooldown s)
         (Store.with_boostCooldown
            (if Qgtb (Store.boostCooldown c) 0 then decay (Store.boostCooldown s) delta
             else Store.boostCooldown s) s)).
Proof.
  destruct s. unfold updateCooldowns, decay. run_block.
  destruct (Qgtb (Store.boostCooldown c) 0), (Qgtb (Store.dodgeCooldown c) 0);
    reflexivity.
Qed.

Lemma handleBoost_run c input now s :
  Store.boostStartTime s = Store.boostStartTime c ->
  handleBoost c input now s =
  (tt, Store.with_boostCooldown
         (if boostEnds c now then CONFIG.BOOST_COOLDOWN else Store.boostCooldown s)
         (Store.with_boostActive
            (if boostEnds c now then false
             else if boostStarts c input then true else Store.boostActive s)
            (Store.with_boostStartTime
               (if boostStarts c input then now else Store.boostStartTime s) s))).
Proof.
  destruct s. cbn [Store.boostStartTime]. intros ->.
  unfold handleBoost, boostEnds, boostStarts. run_block.
  destruct (Store.boostActive c); rewrite ?andb_false_r; cbn [andb negb]; run_block.
  - destruct (Qgtb (now - Store.boostStartTime c) CONFIG.BOOST_DURATION); reflexivity.
  - destruct (Input.boost input && Qeq_bool (Store.boostCooldown c) 0); reflexivity.
Qed.

Lemma handleDodge_run c input now s :
  Store.dodgeStartTime s = Store.dodgeStartTime c ->
  handleDodge c input now s =
  (tt, Store.with_dodgeCooldown
         (if dodgeEnds c now then CONFIG.DODGE_COOLDOWN else Store.dodgeCooldown s)
         (Store.with_isInvulnerable
            (if dodgeEnds c now then false
             else if dodgeStarts c input then true else Store.isInvulnerable s)
            (Store.with_isRolling
               (if dodgeEnds c now then false
                else if dodgeStarts c input then true else Store.isRolling s)
               (Store.with_rollProgress
                  (if Store.isRolling c then rollProgressAt c now
                   else if dodgeStarts c input then 0 else Store.rollProgress s)
                  (Store.with_dodgeStartTime
                     (if dodgeStarts c input then now else Store.dodgeStartTime s)
                     s))))).
Proof.
  destruct s. cbn [Store.dodgeStartTime]. intros ->.
  unfold handleDodge, dodgeEnds, dodgeStarts, rollProgressAt. run_block.
  destruct (Store.isRolling c); rewrite ?andb_false_r; cbn [andb negb]; run_block.
  - destruct (Qgeb (Math.min ((now - Store.dodgeStartTime c) / CONFIG.DODGE_DURATION) 1) 1);
      reflexivity.
  - destruct (Input.dodge input && Qeq_bool (Store.dodgeCooldown c) 0); reflexivity.
Qed.

Lemma calculateSpeed_run c s :
  calculateSpeed c s = (speedOf c, Store.with_currentSpeed (speedOf c) s).
Proof. reflexivity. Qed.

Lemma updateSplineProgress_run c delta s :
  Store.splineProgress s = Store.splineProgress c ->
  updateSplineProgress c (speedOf c) delta s =
  (tt, Store.with_splineProgress (nextProgress c delta) s).
Proof.
  intro E. unfold updateSplineProgress, nextProgress. run_block. now rewrite E.
Qed.

Lemma updateLocalOffset_run c input delta s :
  Store.localOffset s = Store.localOffset c ->
  updateLocalOffset c input delta s =
  (tt, Store.with_localOffset (nextOffset c input delta) s).
Proof.
  intro E. unfold updateLocalOffset, nextOffset. run_block. now rewrite E.
Qed.

Lemma updateShipRotation_run input s :
  updateShipRotation input s =
  (tt, Store.with_shipRotation
         (Euler.mk
            (MathUtils.lerp (Euler.x (Store.shipRotation s))
                            (Euler.x (nextTarget input)) (1 # 10))
            (Euler.y (Store.shipRotation s))
            (MathUtils.lerp (Euler.z (Store.shipRotation s))
                            (Euler.z (nextTarget input)) (1 # 10)))
         (Store.with_targetRotation (nextTarget input) s)).
Proof. destruct s. reflexivity. Qed.

Lemma handleFiring_run c input now random s :
  Store.lastFireTime s = Store.lastFireTime c ->
  handleFiring c input now random s =
  (tt, Store.with_projectiles
         (if fires c input now
          then Store.projectiles s ++ [newProjectile c input now random]
          else Store.projectiles s)
         (Store.with_lastFireTime
            (if fires c input now then now else Store.lastFireTime s) s)).
Proof.
  destruct s. cbn [Store.lastFireTime]. intros ->.
  unfold handleFiring, fireProjectile, fires, newProjectile. run_block.
  destruct (Input.fire input); cbn [andb]; [run_block | reflexivity].
  destruct (Qltb (now - Store.lastFireTime c) CONFIG.FIRE_RATE); reflexivity.
Qed.

Lemma reportState_run c e s :
  reportState c e s =
  (if Env.onStateUpdate e
   then Some [ ("position"%string, VVector3 (shipPosition c));
               ("isInvulnerable"%string, VBoolean (Store.isInvulnerable c));
               ("boostActive"%string, VBoolean (Store.boostActive c));
               ("speed"%string, VNumber (Store.currentSpeed c)) ]
   else None, s).
Proof. unfold reportState. destruct (Env.onStateUpdate e); reflexivity. Qed.

(** The controller's callback, run on the closure it was made in. *)
Lemma GameController_useFrame_run c e :
  GameController_useFrame c e (inputOf e) c =
  (if Env.onStateUpdate e
   then Some [ ("position"%string, VVector3 (shipPosition c));
               ("isInvulnerable"%string, VBoolean (Store.isInvulnerable c));
               ("boostActive"%string, VBoolean (Store.boostActive c));
               ("speed"%string, VNumber (Store.currentSpeed c)) ]
   else None, gameClosed c e).
Proof.
  unfold GameController_useFrame.
  cbv beta zeta delta [bind].
  rewrite updateCooldowns_run.
  rewrite handleBoost_run by (destruct c; reflexivity).
  rewrite handleDodge_run by (destruct c; reflexivity).
  rewrite calculateSpeed_run.
  rewrite updateSplineProgress_run by (destruct c; reflexivity).
  rewrite updateLocalOffset_run by (destruct c; reflexivity).
  rewrite updateShipRotation_run.
  rewrite handleFiring_run by (destruct c; reflexivity).
  rewrite reportState_run.
  reflexivity.
Qed.

Lemma game_closed c e : game c e = gameClosed c e.
Proof.
  unfold game. fold (inputOf e). now rewrite GameController_useFrame_run.
Qed.

End Blocks.

(* ------------------------------------------------------------------------- *)
(** ** One frame in closed form *)

Section Frame.
Context `{Host}.

Lemma forEach_expire comps e : forall s,
  forEach (fun p => Projectile_useFrame p e) comps s =
  (tt, Store.with_projectiles
         (expireAll comps (Env.now e) (Store.projectiles s)) s).
Proof.
  induction comps as [| k comps IH]; intros s.
  - destruct s. reflexivity.
  - cbn [forEach]. unfold bind at 1.
    unfold Projectile_useFrame at 1, removeProjectile, when, setProjectiles, ret.
    unfold expireAll. cbn [fold_left]. fold (expireAll comps (Env.now e)).
    destruct (Projectile_expired k (Env.now e)); rewrite IH; destruct s; reflexivity.
Qed.

Lemma step_closed c e :
  step c e =
  Store.with_mounted
    (map (renderProjectile (Store.mounted c) (Env.renderNow e)) (nextProjectiles c e))
    (Store.with_projectiles (nextProjectiles c e) (gameClosed c e)).
Proof.
  unfold step, frame. fold (inputOf e).
  cbv beta zeta delta [bind].
  rewrite GameController_useFrame_run, forEach_expire.
  reflexivity.
Qed.

Lemma emitted_closed c e :
  emitted c e =
  if Env.onStateUpdate e
  then Some [ ("position"%string, VVector3 (shipPosition c));
              ("isInvulnerable"%string, VBoolean (Store.isInvulnerable c));
              ("boostActive"%string, VBoolean (Store.boostActive c));
              ("speed"%string, VNumber (Store.currentSpeed c)) ]
  else None.
Proof.
  unfold emitted, frame. fold (inputOf e).
  cbv beta zeta delta [bind].
  rewrite GameController_useFrame_run, forEach_expire.
  reflexivity.
Qed.

(** Field by field. *)
Lemma step_isRolling c e :
  Store.isRolling (step c e) =
  if dodgeEnds c (Env.now e) then false
  else if dodgeStarts c (inputOf e) then true else Store.isRolling c.
Proof. now rewrite step_closed. Qed.

Lemma step_isInvulnerable c e :
  Store.isInvulnerable (step c e) =
  if dodgeEnds c (Env.now e) then false
  else if dodgeStarts c (inputOf e) then true else Store.isInvulnerable c.
Proof. now rewrite step_closed. Qed.

Lemma step_boostActive c e :
  Store.boostActive (step c e) =
  if boostEnds c (Env.now e) then false
  else if boostStarts c (inputOf e) then true else Store.boostActive c.
Proof. now rewrite step_closed. Qed.


Lemma step_boostCooldown c e :
  Store.boostCooldown (step c e) =
  if boostEnds c (Env.now e) then CONFIG.BOOST_COOLDOWN
  else if Qgtb (Store.boostCooldown c) 0 then decay (Store.boostCooldown c) (Env.delta e)
  else Store.boostCooldown c.
Proof. now rewrite step_closed. Qed.

Lemma step_dodgeCooldown c e :
  Store.dodgeCooldown (step c e) =
  if dodgeEnds c (Env.now e) then CONFIG.DODGE_COOLDOWN
  else if Qgtb (Store.dodgeCooldown c) 0 then decay (Store.dodgeCooldown c) (Env.delta e)
  else Store.dodgeCooldown c.
Proof. now rewrite step_closed. Qed.

Lemma step_splineProgress c e :
  Store.splineProgress (step c e) = nextProgress c (Env.delta e).
Proof. now rewrite step_closed. Qed.

Lemma step_localOffset c e :
  Store.localOffset (step c e) = nextOffset c (inputOf e) (Env.delta e).
Proof. now rewrite step_closed. Qed.

Lemma step_lastFireTime c e :
  Store.lastFireTime (step c e) =
  if fires c (inputOf e) (Env.now e) then Env.now e else Store.lastFireTime c.
Proof. now rewrite step_closed. Qed.

Lemma step_projectiles c e :
  Store.projectiles (step c e) = nextProjectiles c e.
Proof. now rewrite step_closed. Qed.

Lemma step_mounted c e :
  Store.mounted (step c e) =
  map (renderProjectile (Store.mounted c) (Env.renderNow e)) (nextProjectiles c e).
Proof. now rewrite step_closed. Qed.

Lemma step_spline c e : Store.spline (step c e) = Store.spline c.
Proof. now rewrite step_closed. Qed.

Lemma reachable_run s es : reachable s -> reachable (run s es).
Proof.
  revert s. induction es as [| e es IH]; intros s R; [exact R |].
  apply IH. now apply reachable_step.
Qed.

End Frame.

(* ------------------------------------------------------------------------- *)
(** ** Abilities: dodge and invulnerability, boost, cooldowns *)

Section Abilities.
Context `{Host}.

Lemma reachable_mounted0 : reachable mounted0.
Proof. apply reachable_mount. reflexivity. Qed.

Lemma invulnerable_eq_rolling s :
  reachable s -> Store.isInvulnerable s = Store.isRolling s.
Proof.
  induction 1 as [s M | s e R IH].
  - unfold GameController_mount in M. cbn in M. injection M as <-. reflexivity.
  - rewrite step_isInvulnerable, step_isRolling, IH. reflexivity.
Qed.

(** C1. In every store the simulation can reach, the invulnerability flag is
    the rolling flag: invulnerable exactly while a barrel roll is active, and
    not invulnerable whenever no roll is active. *)
Theorem invulnerable_iff_dodging s :
  reachable s ->
  (Store.isInvulnerable s = true <-> Store.isRolling s = true) /\
  (Store.isRolling s = false -> Store.isInvulnerable s = false).
Proof.
  intro R. rewrite (invulnerable_eq_rolling s R). split; [tauto | auto].
Qed.

End Abilities.

(** C1 at work: a roll started on the first frame, seen on the second store. *)
Lemma invulnerable_iff_dodging_witness :
  let s := step (H := demoHost) mounted0 (pressing dodgeKey (idleEnv 1000)) in
  Store.isRolling s = true /\
  (Store.isInvulnerable s = true <-> Store.isRolling s = true) /\
  (Store.isRolling s = false -> Store.isInvulnerable s = false).
Proof.
  split; [reflexivity |].
  apply (invulnerable_iff_dodging (H := demoHost)).
  apply reachable_step, reachable_mounted0.
Defined.

Section Boost.
Context `{Host}.

Lemma boostStarts_true c input :
  boostStarts c input = true <->
  Input.boost input = true /\ Store.boostCooldown c == 0 /\ Store.boostActive c = false.
Proof.
  unfold boostStarts. rewrite !andb_true_iff, negb_true_iff, Qeq_bool_iff. tauto.
Qed.

Lemma boostStarts_blocked c input :
  Store.boostActive c = true \/ 0 < Store.boostCooldown c ->
  boostStarts c input = false.
Proof.
  intros [A | C]; unfold boostStarts.
  - rewrite A. cbn [negb]. apply andb_false_r.
  - assert (E : Qeq_bool (Store.boostCooldown c) 0 = false)
      by (apply Qeq_bool_false; lra).
    rewrite E, andb_false_r. reflexivity.
Qed.

Lemma gameClosed_withoutBoost c e :
  boostStarts c (inputOf e) = false ->
  gameClosed c e = gameClosed c (withoutBoost e).
Proof.
  intro B.
  assert (B' : boostStarts c (inputOf (withoutBoost e)) = false) by reflexivity.
  unfold gameClosed. rewrite B, B'.
  destruct e as [now delta random renderNow keys mouse gamepad sink].
  destruct keys, gamepad as [l r b]; destruct b.
  reflexivity.
Qed.

(** C2. The boost leaves Idle for Active on a frame exactly when boost is
    requested, the cooldown is 0 and no boost is active; a request made while
    a boost is active or the cooldown is positive changes nothing: the frame
    leaves the store the same frame without the request leaves. *)
Theorem boost_activation_gate c e :
  (Store.boostActive c = false /\ Store.boostActive (step c e) = true <->
   Input.boost (inputOf e) = true /\ Store.boostCooldown c == 0 /\
   Store.boostActive c = false) /\
  (Store.boostActive c = true \/ 0 < Store.boostCooldown c ->
   step c e = step c (withoutBoost e)).
Proof.
  split.
  - rewrite step_boostActive, <- boostStarts_true.
    unfold boostEnds, boostStarts.
    destruct (Store.boostActive c); cbn [andb negb].
    + rewrite andb_false_r. split; intros; intuition discriminate.
    + destruct (Input.boost (inputOf e) && Qeq_bool (Store.boostCooldown c) 0);
        intuition discriminate.
  - intro B. rewrite !step_closed. unfold nextProjectiles.
    rewrite <- (gameClosed_withoutBoost c e) by now apply boostStarts_blocked.
    reflexivity.
Qed.

End Boost.

(** C2 at work: with the cooldown running, a pressed boost key is ignored; on
    the mounted controller it starts the boost. *)
Lemma boost_activation_gate_witness :
  let cooling :=
    run (H := demoHost) mounted0
      [pressing boostKey (idleEnv 1000); idleEnv 3001] in
  let e := pressing boostKey (idleEnv 3017) in
  0 < Store.boostCooldown cooling /\
  step (H := demoHost) cooling e = step (H := demoHost) cooling (withoutBoost e) /\
  Store.boostActive (step (H := demoHost) mounted0 e) = true.
Proof.
  split; [reflexivity |]. split.
  - apply (boost_activation_gate (H := demoHost)). right. reflexivity.
  - apply (proj1 (boost_activation_gate (H := demoHost) mounted0
                    (pressing boostKey (idleEnv 3017)))).
    repeat split.
Defined.

Section Cooldowns.
Context `{Host}.

Lemma decay_nonneg c d : 0 <= decay c d.
Proof. unfold decay. apply max_spec. Qed.

Lemma cooldown_next_ok (active starts ends : bool) (c d k : Q) :
  (active = true -> c == 0) -> 0 <= c -> 0 <= k ->
  (starts = true -> c == 0) ->
  (ends = true -> active = true) ->
  let c' := if ends then k else if Qgtb c 0 then decay c d else c in
  let active' := if ends then false else if starts then true else active in
  (active' = true -> c' == 0) /\ 0 <= c'.
Proof.
  intros A C K S E. cbn zeta.
  pose proof (decay_nonneg c d) as D.
  destruct ends; [split; [discriminate | exact K] |].
  destruct (Qgtb c 0) eqn:G; qprop.
  - split; [| exact D].
    destruct starts; [intros _; specialize (S eq_refl); lra |].
    intro A'. specialize (A A'). lra.
  - split; [| exact C]. intros _. lra.
Qed.

Lemma abilities_ok_step s e : abilities_ok s -> abilities_ok (step s e).
Proof.
  intros (B & D & Bn & Dn). unfold abilities_ok.
  rewrite step_boostActive, step_boostCooldown, step_isRolling, step_dodgeCooldown.
  pose proof (cooldown_next_ok (Store.boostActive s) (boostStarts s (inputOf e))
                (boostEnds s (Env.now e)) (Store.boostCooldown s) (Env.delta e)
                CONFIG.BOOST_COOLDOWN B Bn) as PB.
  pose proof (cooldown_next_ok (Store.isRolling s) (dodgeStarts s (inputOf e))
                (dodgeEnds s (Env.now e)) (Store.dodgeCooldown s) (Env.delta e)
                CONFIG.DODGE_COOLDOWN D Dn) as PD.
  cbn zeta in PB, PD.
  destruct PB as [PB1 PB2].
  - unfold CONFIG.BOOST_COOLDOWN. lra.
  - intro S. now apply boostStarts_true in S.
  - unfold boostEnds. now intros [A _]%andb_true_iff.
  - destruct PD as [PD1 PD2].
    + unfold CONFIG.DODGE_COOLDOWN. lra.
    + unfold dodgeStarts. rewrite !andb_true_iff, Qeq_bool_iff. tauto.
    + unfold dodgeEnds. now intros [A _]%andb_true_iff.
    + auto.
Qed.

Lemma reachable_abilities_ok s : reachable s -> abilities_ok s.
Proof.
  induction 1 as [s M | s e R IH].
  - unfold GameController_mount in M. cbn in M. injection M as <-.
    unfold abilities_ok. cbn. repeat split; try discriminate; lra.
  - now apply abilities_ok_step.
Qed.

(** A running cooldown is not interrupted: the ability is idle, so the frame
    only lets it decay. *)
Lemma boostCooldown_running s e :
  abilities_ok s -> 0 < Store.boostCooldown s ->
  Store.boostCooldown (step s e) = decay (Store.boostCooldown s) (Env.delta e).
Proof.
  intros (B & _) P. rewrite step_boostCooldown.
  assert (A : Store.boostActive s = false).
  { destruct (Store.boostActive s); [| reflexivity]. specialize (B eq_refl). lra. }
  unfold boostEnds. rewrite A. cbn [andb].
  assert (G : Qgtb (Store.boostCooldown s) 0 = true) by now apply Qltb_lt.
  now rewrite G.
Qed.

Lemma dodgeCooldown_running s e :
  abilities_ok s -> 0 < Store.dodgeCooldown s ->
  Store.dodgeCooldown (step s e) = decay (Store.dodgeCooldown s) (Env.delta e).
Proof.
  intros (_ & D & _) P. rewrite step_dodgeCooldown.
  assert (A : Store.isRolling s = false).
  { destruct (Store.isRolling s); [| reflexivity]. specialize (D eq_refl). lra. }
  unfold dodgeEnds. rewrite A. cbn [andb].
  assert (G : Qgtb (Store.dodgeCooldown s) 0 = true) by now apply Qltb_lt.
  now rewrite G.
Qed.

(** After a frame that let a cooldown decay the ability is still idle. *)
Lemma boost_idle_after s e :
  abilities_ok s -> 0 < Store.boostCooldown s ->
  Store.boostActive (step s e) = false.
Proof.
  intros (B & _) P. rewrite step_boostActive.
  assert (A : Store.boostActive s = false).
  { destruct (Store.boostActive s); [| reflexivity]. specialize (B eq_refl). lra. }
  rewrite boostStarts_blocked by now right.
  unfold boostEnds. now rewrite A.
Qed.

Lemma dodge_idle_after s e :
  abilities_ok s -> 0 < Store.dodgeCooldown s ->
  Store.isRolling (step s e) = false.
Proof.
  intros (_ & D & _) P. rewrite step_isRolling.
  assert (A : Store.isRolling s = false).
  { destruct (Store.isRolling s); [| reflexivity]. specialize (D eq_refl). lra. }
  assert (E : Qeq_bool (Store.dodgeCooldown s) 0 = false)
    by (apply Qeq_bool_false; lra).
  unfold dodgeEnds, dodgeStarts. rewrite A, E, andb_false_r. reflexivity.
Qed.

End Cooldowns.

(** *** Cooldowns under rounding *)

Lemma roundToGrid_error t : Qabs (roundToGrid t - t) <= 1 # 2199023255552.
Proof.
  unfold roundToGrid. apply abs_le.
  set (x := t * 1099511627776 + (1 # 2)).
  pose proof (Qfloor_le x) as L. pose proof (Qlt_floor x) as U.
  assert (E : inject_Z (Qfloor x + 1) == inject_Z (Qfloor x) + 1)
    by (rewrite inject_Z_plus; reflexivity).
  rewrite E in U. clear E.
  set (f := inject_Z (Qfloor x)) in *.
  assert (D : f / 1099511627776 == f * (1 # 1099511627776)) by field.
  rewrite D. subst x. lra.
Qed.

(** Every operation returns its exact result within [eta], as long as the
    result is within [bound]. *)
Section RoundedCooldown.
Variable rnd : Q -> Q.
Variables eta bound : Q.
Hypothesis rnd_error : forall t, Qabs t <= bound -> Qabs (rnd t - t) <= eta.

Lemma rnd_within t : - bound <= t <= bound -> - eta <= rnd t - t <= eta.
Proof. intro R. apply abs_le, rnd_error, abs_le, R. Qed.

Lemma cooldownFrameR_nonneg c d : 0 <= c -> 0 <= cooldownFrameR rnd c d.
Proof.
  intro C. unfold cooldownFrameR, decayR.
  destruct (Qgtb c 0); [apply max_spec | exact C].
Qed.

(** One frame leaves the exact [Math.max 0 (c - d * 1000)] within two
    roundings. *)
Lemma cooldown_frame_rounded c d :
  0 <= eta -> 0 < c -> 0 <= d -> c + d * 1000 + 4 * eta <= bound ->
  Qabs (cooldownFrameR rnd c d - Math.max 0 (c - d * 1000)) <= 2 * eta.
Proof.
  intros E C D B. unfold cooldownFrameR.
  assert (G : Qgtb c 0 = true) by now apply Qltb_lt.
  rewrite G. unfold decayR.
  set (a := rnd (d * 1000)).
  assert (A : - eta <= a - d * 1000 <= eta) by (apply rnd_within; lra).
  set (p := rnd (c - a)).
  assert (P : - eta <= p - (c - a) <= eta) by (apply rnd_within; lra).
  destruct (max0_cases p) as [[Pp ->] | [Pp ->]],
           (max0_cases (c - d * 1000)) as [[Xp ->] | [Xp ->]];
    apply abs_le; lra.
Qed.

(** Two frames of half the time leave what one frame of the whole time leaves
    within six roundings. *)
Lemma cooldown_halves_rounded c d :
  0 <= eta -> 0 < c -> 0 <= d -> c + d * 1000 + 4 * eta <= bound ->
  Qabs (cooldownFrameR rnd (cooldownFrameR rnd c (d / 2)) (d / 2)
        - cooldownFrameR rnd c d) <= 6 * eta.
Proof.
  intros E C D B.
  assert (Hh : d / 2 * 1000 == d * 500) by field.
  unfold cooldownFrameR at 2 3.
  assert (G : Qgtb c 0 = true) by now apply Qltb_lt.
  rewrite G. unfold decayR.
  set (a2 := rnd (d * 1000)). set (a1 := rnd (d / 2 * 1000)).
  assert (A2 : - eta <= a2 - d * 1000 <= eta) by (apply rnd_within; lra).
  assert (A1 : - eta <= a1 - d / 2 * 1000 <= eta) by (apply rnd_within; lra).
  set (p := rnd (c - a2)). set (q := rnd (c - a1)).
  assert (P : - eta <= p - (c - a2) <= eta) by (apply rnd_within; lra).
  assert (Q1 : - eta <= q - (c - a1) <= eta) by (apply rnd_within; lra).
  unfold cooldownFrameR, decayR. fold a1.
  destruct (max0_cases p) as [[Pp ->] | [Pp ->]], (max0_cases q) as [[Qq ->] | [Qq ->]].
  - assert (G0 : Qgtb 0 0 = false) by reflexivity. rewrite G0.
    apply abs_le. lra.
  - destruct (Qgtb q 0) eqn:Gq; qprop.
    + set (q2 := rnd (q - a1)).
      assert (Q2 : - eta <= q2 - (q - a1) <= eta) by (apply rnd_within; lra).
      destruct (max0_cases q2) as [[Q2p ->] | [Q2p ->]]; apply abs_le; lra.
    + apply abs_le; lra.
  - assert (G0 : Qgtb 0 0 = false) by reflexivity. rewrite G0.
    apply abs_le. lra.
  - destruct (Qgtb q 0) eqn:Gq; qprop.
    + set (q2 := rnd (q - a1)).
      assert (Q2 : - eta <= q2 - (q - a1) <= eta) by (apply rnd_within; lra).
      destruct (max0_cases q2) as [[Q2p ->] | [Q2p ->]]; apply abs_le; lra.
    + apply abs_le; lra.
Qed.

End RoundedCooldown.

Section CooldownDecay.
Context `{Host}.

(** Two frames take a running cooldown through the cooldown update twice: the
    ability stays idle in between. *)
Lemma boostCooldown_two_frames s e1 e2 :
  abilities_ok s -> 0 < Store.boostCooldown s ->
  Store.boostCooldown (step (step s e1) e2) ==
  cooldownFrameR unrounded (cooldownFrameR unrounded (Store.boostCooldown s) (Env.delta e1))
                 (Env.delta e2).
Proof.
  intros Ok P.
  rewrite (step_boostCooldown (step s e1)).
  unfold boostEnds. rewrite (boost_idle_after s e1 Ok P). cbn [andb].
  rewrite !boostCooldown_running by assumption.
  unfold cooldownFrameR at 2. apply Qltb_lt in P as G. unfold Qgtb. rewrite G.
  reflexivity.
Qed.

Lemma dodgeCooldown_two_frames s e1 e2 :
  abilities_ok s -> 0 < Store.dodgeCooldown s ->
  Store.dodgeCooldown (step (step s e1) e2) ==
  cooldownFrameR unrounded (cooldownFrameR unrounded (Store.dodgeCooldown s) (Env.delta e1))
                 (Env.delta e2).
Proof.
  intros Ok P.
  rewrite (step_dodgeCooldown (step s e1)).
  unfold dodgeEnds. rewrite (dodge_idle_after s e1 Ok P). cbn [andb].
  rewrite !dodgeCooldown_running by assumption.
  unfold cooldownFrameR at 2. apply Qltb_lt in P as G. unfold Qgtb. rewrite G.
  reflexivity.
Qed.

(** C3. In a reachable store no cooldown is negative, and a positive cooldown
    (boost or dodge) becomes [Math.max 0 (cooldown - delta * 1000)]: it loses
    the frame's elapsed time in milliseconds and stops at 0.  Two frames take
    it through that update twice.  The decay is independent of the frame rate
    up to rounding: when every operation returns its exact result within
    [eta], the update stays at or above 0, leaves the exact value within
    [2 * eta], and two frames of half the elapsed time leave what one frame of
    the whole time leaves within [6 * eta] (the same in exact arithmetic, where
    [eta] is 0). *)
Theorem cooldowns_decay s e :
  reachable s ->
  (0 <= Store.boostCooldown s /\ 0 <= Store.dodgeCooldown s) /\
  (0 < Store.boostCooldown s ->
   Store.boostCooldown (step s e) ==
   Math.max 0 (Store.boostCooldown s - Env.delta e * 1000)) /\
  (0 < Store.dodgeCooldown s ->
   Store.dodgeCooldown (step s e) ==
   Math.max 0 (Store.dodgeCooldown s - Env.delta e * 1000)) /\
  (forall e1 e2,
      (0 < Store.boostCooldown s ->
       Store.boostCooldown (step (step s e1) e2) ==
       cooldownFrameR unrounded
         (cooldownFrameR unrounded (Store.boostCooldown s) (Env.delta e1))
         (Env.delta e2)) /\
      (0 < Store.dodgeCooldown s ->
       Store.dodgeCooldown (step (step s e1) e2) ==
       cooldownFrameR unrounded
         (cooldownFrameR unrounded (Store.dodgeCooldown s) (Env.delta e1))
         (Env.delta e2))) /\
  (forall (rnd : Q -> Q) (eta bound c d : Q),
      (forall t, Qabs t <= bound -> Qabs (rnd t - t) <= eta) ->
      0 <= eta -> 0 < c -> 0 <= d -> c + d * 1000 + 4 * eta <= bound ->
      0 <= cooldownFrameR rnd c d /\
      Qabs (cooldownFrameR rnd c d - Math.max 0 (c - d * 1000)) <= 2 * eta /\
      Qabs (cooldownFrameR rnd (cooldownFrameR rnd c (d / 2)) (d / 2)
            - cooldownFrameR rnd c d) <= 6 * eta).
Proof.
  intro R. pose proof (reachable_abilities_ok s R) as Ok.
  split; [destruct Ok as (_ & _ & ? & ?); now split |].
  split; [intro P; rewrite boostCooldown_running by assumption; reflexivity |].
  split; [intro P; rewrite dodgeCooldown_running by assumption; reflexivity |].
  split.
  - intros e1 e2. split; intro P.
    + now apply boostCooldown_two_frames.
    + now apply dodgeCooldown_two_frames.
  - intros rnd eta bound c d Err E C D B. split; [| split].
    + apply cooldownFrameR_nonneg. lra.
    + now apply (cooldown_frame_rounded rnd eta bound Err).
    + now apply (cooldown_halves_rounded rnd eta bound Err).
Qed.

End CooldownDecay.

(** C3 at work: the boost cooldown of 5000 ms after a frame of 16 ms and after
    two frames of 8 ms; and, rounding to the doubles' spacing of 2^-40, after
    a frame of 1/60 s and after two frames of 1/120 s. *)
Lemma cooldowns_decay_witness :
  let cooling :=
    run (H := demoHost) mounted0
      [pressing boostKey (idleEnv 1000); idleEnv 3001] in
  let e := idleEnv 3017 in
  let e1 := lasting (8 # 1000) (idleEnv 3009) in
  let e2 := lasting (8 # 1000) (idleEnv 3017) in
  let one := cooldownFrameR roundToGrid 5000 (1 # 60) in
  let two :=
    cooldownFrameR roundToGrid
      (cooldownFrameR roundToGrid 5000 ((1 # 60) / 2)) ((1 # 60) / 2) in
  Store.boostCooldown cooling == 5000 /\
  Store.boostCooldown (step (H := demoHost) cooling e) == 4984 /\
  Store.boostCooldown (step (H := demoHost) (step (H := demoHost) cooling e1) e2) == 4984 /\
  two - one == 1 # 1099511627776 /\
  Qabs (two - one) <= 6 * (1 # 2199023255552).
Proof.
  cbv zeta.
  pose proof (cooldowns_decay (H := demoHost)
                (run (H := demoHost) mounted0
                   [pressing boostKey (idleEnv 1000); idleEnv 3001])
                (idleEnv 3017)
                (reachable_run (H := demoHost) _ _ (reachable_mounted0 (H := demoHost))))
    as (_ & One & _ & Two & Rounded).
  split; [reflexivity |]. split; [| split; [| split]].
  - rewrite One by reflexivity. reflexivity.
  - destruct (Two (lasting (8 # 1000) (idleEnv 3009))
                  (lasting (8 # 1000) (idleEnv 3017))) as [B _].
    rewrite B by reflexivity. reflexivity.
  - reflexivity.
  - apply (Rounded roundToGrid (1 # 2199023255552) 8192 5000 (1 # 60)).
    + intros t _. apply roundToGrid_error.
    + discriminate.
    + reflexivity.
    + discriminate.
    + discriminate.
Defined.

(** C3, the other way round: on binary64 two frames of 1/120 s do not leave
    the cooldown one frame of 1/60 s leaves, though the two halves add up to
    the whole exactly.  The boost cooldown ends one spacing (2^-40) higher,
    the dodge cooldown one spacing (2^-41) lower. *)
Lemma cooldown_halves_differ_in_binary64 :
  let frame := Binary64.cooldownFrame in
  let d := Binary64.delta60 in
  let h := Binary64.delta120 in
  PrimFloat.eqb (PrimFloat.add h h) d = true /\
  PrimFloat.eqb (frame (frame Binary64.BOOST_COOLDOWN h) h)
                (frame Binary64.BOOST_COOLDOWN d) = false /\
  Binary64.toQ (frame (frame Binary64.BOOST_COOLDOWN h) h)
  - Binary64.toQ (frame Binary64.BOOST_COOLDOWN d) == 1 # 1099511627776 /\
  PrimFloat.eqb (frame (frame Binary64.DODGE_COOLDOWN h) h)
                (frame Binary64.DODGE_COOLDOWN d) = false /\
  Binary64.toQ (frame (frame Binary64.DODGE_COOLDOWN h) h)
  - Binary64.toQ (frame Binary64.DODGE_COOLDOWN d) == - (1 # 2199023255552).
Proof. vm_compute. repeat split. Qed.

(* ------------------------------------------------------------------------- *)
(** ** Motion: the lateral offset and the progress along the path *)

Section Motion.
Context `{Host}.

Lemma clamp_above v lo hi : lo <= hi -> hi <= v -> MathUtils.clamp v lo hi == hi.
Proof.
  intros L V. unfold MathUtils.clamp, Math.max, Math.min.
  qcase; qprop; lra.
Qed.

Lemma nextOffset_withinBounds c input delta : withinBounds (nextOffset c input delta).
Proof.
  unfold withinBounds, nextOffset. cbn [XY.x XY.y].
  split; apply clamp_bounds; cbn; lra.
Qed.

Lemma reachable_withinBounds s : reachable s -> withinBounds (Store.localOffset s).
Proof.
  destruct 1 as [s M | s e R].
  - unfold GameController_mount in M. cbn in M. injection M as <-.
    unfold withinBounds. cbn. lra.
  - rewrite step_localOffset. apply nextOffset_withinBounds.
Qed.

(** C4. After a frame the lateral offset is within the play area on both
    axes, whatever the store and the input were, hence in every reachable
    store; and on the mounted controller, with [moveX = 1] and a frame of one
    second, the first frame leaves [x = 8] and the second [x = 12]. *)
Theorem lateral_offset_bounded :
  (forall c e, withinBounds (Store.localOffset (step c e))) /\
  (forall s, reachable s -> withinBounds (Store.localOffset s)) /\
  (forall e1 e2,
      Env.delta e1 == 1 -> Input.moveX (inputOf e1) == 1 ->
      Env.delta e2 == 1 -> Input.moveX (inputOf e2) == 1 ->
      XY.x (Store.localOffset (step mounted0 e1)) == 8 /\
      XY.x (Store.localOffset (step (step mounted0 e1) e2)) == 12).
Proof.
  split; [intros c e; rewrite step_localOffset; apply nextOffset_withinBounds |].
  split; [exact reachable_withinBounds |].
  intros e1 e2 D1 M1 D2 M2.
  assert (X1 : XY.x (Store.localOffset (step mounted0 e1)) == 8).
  { rewrite step_localOffset. unfold nextOffset.
    cbn [XY.x Store.localOffset Store.isRolling mounted0 initialStore].
    unfold CONFIG.MOVE_SPEED, CONFIG.MOVE_BOUNDS. cbn [XY.x].
    rewrite clamp_inside; rewrite D1, M1; lra. }
  split; [exact X1 |].
  rewrite step_localOffset. unfold nextOffset. cbn [XY.x].
  unfold CONFIG.MOVE_SPEED, CONFIG.MOVE_BOUNDS, CONFIG.DODGE_AGILITY_MULT. cbn [XY.x].
  apply clamp_above; [lra |].
  rewrite X1, D2, M2.
  destruct (Store.isRolling (step mounted0 e1)); lra.
Qed.

End Motion.

(** C4 at work: the right key held for two frames of one second. *)
Lemma lateral_offset_bounded_witness :
  let e := lasting 1 (pressing rightKey (idleEnv 1000)) in
  XY.x (Store.localOffset (step (H := demoHost) mounted0 e)) == 8 /\
  XY.x (Store.localOffset
          (step (H := demoHost) (step (H := demoHost) mounted0 e) e)) == 12.
Proof.
  apply (proj2 (proj2 (lateral_offset_bounded (H := demoHost)))); reflexivity.
Defined.

Section Progress.
Context `{Host}.

Lemma progressDelta_nonneg c delta :
  0 <= delta -> 0 < getLength (Store.spline c) ->
  0 <= (speedOf c * delta) / getLength (Store.spline c).
Proof.
  intros D L. unfold Qdiv.
  apply Qmult_le_0_compat.
  - apply Qmult_le_0_compat; [| exact D].
    unfold speedOf, CONFIG.BOOST_SPEED, CONFIG.FORWARD_SPEED.
    destruct (Store.boostActive c); lra.
  - apply Qlt_le_weak, Qinv_lt_0_compat, L.
Qed.

Lemma nextProgress_lt_1 c delta : nextProgress c delta < 1.
Proof.
  unfold nextProgress. cbn zeta. qcase; qprop; lra.
Qed.

Lemma nextProgress_nonneg c delta :
  0 <= Store.splineProgress c -> 0 <= delta -> 0 < getLength (Store.spline c) ->
  0 <= nextProgress c delta.
Proof.
  intros P D L. pose proof (progressDelta_nonneg c delta D L) as N.
  unfold nextProgress. cbn zeta. qcase; qprop; lra.
Qed.

Lemma run_spline s es : Store.spline (run s es) = Store.spline s.
Proof.
  revert s. induction es as [| e es IH]; intro s; [reflexivity |].
  cbn [run fold_left]. fold (run (step s e) es). now rewrite IH, step_spline.
Qed.

Lemma run_progress es : forall s,
  0 < getLength (Store.spline s) ->
  Forall (fun e => 0 <= Env.delta e) es ->
  0 <= Store.splineProgress s < 1 ->
  0 <= Store.splineProgress (run s es) < 1.
Proof.
  induction es as [| e es IH]; intros s L D P; [exact P |].
  cbn [run fold_left]. fold (run (step s e) es).
  inversion D as [| e' es' De Des]; subst.
  apply IH.
  - now rewrite step_spline.
  - exact Des.
  - rewrite step_splineProgress. split.
    + apply nextProgress_nonneg; tauto.
    + apply nextProgress_lt_1.
Qed.

(** C7. On a curve of positive length, the frame adds [speed * delta / length]
    to the progress, the speed being the boosted or the base constant, and
    puts the progress back to exactly 0 when the sum reaches 1, so the new
    progress is below 1; with elapsed times that are not negative the progress
    is in [0, 1) after every run of frames from the mounted controller.  The
    controller samples the curve at [min(progress, 0.999)], never above 0.999. *)
Theorem path_progress_wraps :
  0 < getLength levelSpline ->
  (forall c e,
      0 < getLength (Store.spline c) ->
      let next := Store.splineProgress c
                  + (speedOf c * Env.delta e) / getLength (Store.spline c) in
      (1 <= next -> Store.splineProgress (step c e) = 0) /\
      (next < 1 -> Store.splineProgress (step c e) = next) /\
      Store.splineProgress (step c e) < 1) /\
  (forall es,
      Forall (fun e => 0 <= Env.delta e) es ->
      0 <= Store.splineProgress (run mounted0 es) < 1) /\
  (forall c,
      splinePosition c = getPointAt (Store.spline c) (splineFraction c) /\
      splineFraction c = Math.min (Store.splineProgress c) (999 # 1000) /\
      splineFraction c <= 999 # 1000).
Proof.
  intro L. split; [| split].
  - intros c e _ next. subst next. rewrite step_splineProgress.
    split; [| split].
    + intro G. unfold nextProgress. cbn zeta.
      apply Qle_bool_iff in G. unfold Qgeb. now rewrite G.
    + intro G. unfold nextProgress. cbn zeta.
      apply Qle_bool_gt in G. unfold Qgeb. now rewrite G.
    + apply nextProgress_lt_1.
  - intros es D. apply run_progress; [exact L | exact D |].
    cbn. lra.
  - intro c. split; [reflexivity |]. split; [reflexivity |].
    unfold splineFraction. apply min_spec.
Qed.

End Progress.

(** C7 at work, on a path of length 1000: a boosted frame of 30 seconds would
    bring the progress to 1.05, and leaves 0. *)
Lemma path_progress_wraps_witness :
  let boosting :=
    step (H := demoHost) mounted0 (pressing boostKey (idleEnv 1000)) in
  let e := lasting 30 (idleEnv 1016) in
  Store.splineProgress (step (H := demoHost) boosting e) = 0 /\
  0 <= Store.splineProgress
         (run (H := demoHost) mounted0
            [pressing boostKey (idleEnv 1000); lasting 30 (idleEnv 1016)]) < 1.
Proof.
  cbv zeta.
  assert (L : 0 < getLength (Host := demoHost) levelSpline) by reflexivity.
  destruct (path_progress_wraps (H := demoHost) L) as (Upd & Run & _).
  split.
  - apply Upd; [reflexivity | vm_compute; discriminate].
  - apply Run. repeat constructor; vm_compute; discriminate.
Defined.

(* ------------------------------------------------------------------------- *)
(** ** Projectiles: the fire-rate gate *)

(** *** Closeness up to a factor *)

Section Near.
Variable w : Q.
Hypothesis w_pos : 0 < w.
Hypothesis w_le_1 : w <= 1.

Lemma Qpow_pos k : 0 < Qpow w k.
Proof.
  induction k as [| k IH]; cbn [Qpow]; [reflexivity |].
  apply Qmult_lt_0_compat; assumption.
Qed.

Lemma Qpow_le_1 k : Qpow w k <= 1.
Proof.
  induction k as [| k IH]; cbn [Qpow]; [apply Qle_refl |].
  pose proof (Qpow_pos k). nra.
Qed.

Lemma Qpow_add j k : Qpow w (j + k) == Qpow w j * Qpow w k.
Proof.
  induction j as [| j IH]; cbn [Qpow Nat.add]; [ring |].
  rewrite IH. ring.
Qed.

Lemma near_eq k a a' b b' : a == a' -> b == b' -> near w k a b -> near w k a' b'.
Proof. unfold near. intros <- <-. tauto. Qed.

Lemma near_nonneg k a b : near w k a b -> 0 <= a -> 0 <= b.
Proof.
  intros [L _] A. pose proof (Qpow_pos k).
  assert (0 <= Qpow w k * a) by (apply Qmult_le_0_compat; lra). lra.
Qed.

Lemma near_pos k a b : near w k a b -> 0 < a -> 0 < b.
Proof.
  intros [L _] A. pose proof (Qpow_pos k).
  assert (0 < Qpow w k * a) by (apply Qmult_lt_0_compat; lra). lra.
Qed.

Lemma near_more j k a b : 0 <= a -> near w j a b -> near w (j + k) a b.
Proof.
  intros A N. pose proof (near_nonneg j a b N A) as B.
  destruct N as [L U]. unfold near. rewrite Qpow_add.
  pose proof (Qpow_pos j). pose proof (Qpow_pos k). pose proof (Qpow_le_1 k).
  set (pj := Qpow w j) in *. set (pk := Qpow w k) in *.
  assert (0 <= pj * a) by (apply Qmult_le_0_compat; lra).
  assert (0 <= pj * b) by (apply Qmult_le_0_compat; lra).
  split; nra.
Qed.

Lemma near_trans j k a b c :
  0 <= a -> near w j a b -> near w k b c -> near w (j + k) a c.
Proof.
  intros A N1 N2. pose proof (near_nonneg j a b N1 A) as B.
  pose proof (near_nonneg k b c N2 B) as C.
  destruct N1 as [L1 U1], N2 as [L2 U2]. unfold near. rewrite Qpow_add.
  pose proof (Qpow_pos j). pose proof (Qpow_pos k).
  set (pj := Qpow w j) in *. set (pk := Qpow w k) in *.
  split.
  - assert (pk * (pj * a) <= pk * b) by (apply Qmult_le_l; lra). nra.
  - assert (pj * (pk * c) <= pj * b) by (apply Qmult_le_l; lra). nra.
Qed.

Lemma near_add k a b c d : near w k a b -> near w k c d -> near w k (a + c) (b + d).
Proof. unfold near. intros [L1 U1] [L2 U2]. split; nra. Qed.

Lemma near_scale k a b c : 0 <= c -> near w k a b -> near w k (c * a) (c * b).
Proof.
  unfold near. intros C [L U].
  pose proof (Qpow_pos k). set (pk := Qpow w k) in *.
  split.
  - assert (c * (pk * a) <= c * b) by nra. nra.
  - assert (c * (pk * b) <= c * a) by nra. nra.
Qed.

Lemma near_inv k a b : 0 < a -> near w k a b -> near w k (/ a) (/ b).
Proof.
  intros A N. pose proof (near_pos k a b N A) as B.
  destruct N as [L U]. unfold near.
  pose proof (Qpow_pos k). set (pk := Qpow w k) in *.
  assert (Ia : 0 < / a) by now apply Qinv_lt_0_compat.
  assert (Ib : 0 < / b) by now apply Qinv_lt_0_compat.
  assert (P : 0 <= / a * / b)
    by (apply Qlt_le_weak, Qmult_lt_0_compat; assumption).
  pose proof (Qmult_le_compat_r _ _ _ U P) as U'.
  pose proof (Qmult_le_compat_r _ _ _ L P) as L'.
  assert (X : pk * b * (/ a * / b) == pk * / a) by (field; lra).
  assert (Y : a * (/ a * / b) == / b) by (field; lra).
  assert (X' : pk * a * (/ a * / b) == pk * / b) by (field; lra).
  assert (Y' : b * (/ a * / b) == / a) by (field; lra).
  split; lra.
Qed.

End Near.

(** *** [normalize] under rounding: every operation returns its exact result
    within the relative error [u]. *)

Lemma sq_le a b : 0 <= a -> a <= b -> a * a <= b * b.
Proof. intros A B. nra. Qed.

Lemma roundDown_error u t : 0 <= u -> Qabs (roundDown u t - t) <= u * Qabs t.
Proof.
  intro U. unfold roundDown.
  assert (E : t * (1 - u) - t == - (u * t)) by ring.
  rewrite E, Qabs_opp, Qabs_Qmult, (Qabs_pos u U). apply Qle_refl.
Qed.

Section RoundedNormalize.
Context `{Host}.
Variable rnd : Q -> Q.
Variable u : Q.
Hypothesis u_nonneg : 0 <= u.
Hypothesis u_small : u < 1.
Hypothesis rnd_error : forall t, Qabs (rnd t - t) <= u * Qabs t.

Lemma factor_pos : 0 < 1 - u.
Proof. lra. Qed.

Lemma factor_le_1 : 1 - u <= 1.
Proof. lra. Qed.

Lemma rnd_bounds t :
  (0 <= t -> (1 - u) * t <= rnd t <= (1 + u) * t) /\
  (t <= 0 -> (1 + u) * t <= rnd t <= (1 - u) * t).
Proof.
  pose proof (rnd_error t) as E. apply abs_le in E.
  split; intro T.
  - rewrite Qabs_pos in E by exact T. lra.
  - rewrite Qabs_neg in E by exact T. lra.
Qed.

Lemma near_rnd t : 0 <= t -> near (1 - u) 1 t (rnd t).
Proof.
  intro T. destruct (rnd_bounds t) as [B _]. specialize (B T).
  unfold near. cbn [Qpow]. split; nra.
Qed.

Lemma near_sq a b :
  0 <= a -> (1 - u) * a <= b -> b <= (1 + u) * a -> near (1 - u) 2 (a * a) (b * b).
Proof.
  intros A L U. pose proof factor_pos as Wp. pose proof factor_le_1 as W1.
  set (w := 1 - u) in *.
  assert (Wa : 0 <= w * a) by (apply Qmult_le_0_compat; lra).
  assert (Wb : 0 <= w * b) by (apply Qmult_le_0_compat; lra).
  assert (C : w * (1 + u) <= 1) by (unfold w; nra).
  assert (Ca : w * (1 + u) * a <= a) by nra.
  assert (Wu : w * b <= w * ((1 + u) * a)) by (apply Qmult_le_l; lra).
  pose proof (sq_le (w * a) b Wa L) as S1.
  assert (S2' : w * b <= a) by lra.
  pose proof (sq_le (w * b) a Wb S2') as S2.
  unfold near. cbn [Qpow]. split.
  - assert (E : w * (w * 1) * (a * a) == w * a * (w * a)) by ring.
    rewrite E. exact S1.
  - assert (E : w * (w * 1) * (b * b) == w * b * (w * b)) by ring.
    rewrite E. exact S2.
Qed.

Lemma near_rnd_sq t : near (1 - u) 2 (t * t) (rnd t * rnd t).
Proof.
  destruct (rnd_bounds t) as [P N].
  destruct (Qlt_le_dec t 0) as [T | T].
  - assert (T' : t <= 0) by lra. specialize (N T'). clear P.
    apply (near_eq (1 - u) 2 (- t * - t) (t * t) (- rnd t * - rnd t) (rnd t * rnd t));
      [ring | ring |].
    apply near_sq; lra.
  - specialize (P T). clear N. apply near_sq; lra.
Qed.

Lemma near_component k a l i :
  0 <= l -> near (1 - u) k l (i * i) ->
  near (1 - u) (k + 2) ((a * a) * l) (rnd (a * i) * rnd (a * i)).
Proof.
  intros L N.
  assert (A : 0 <= a * a) by nra.
  apply (near_trans (1 - u) factor_pos k 2 _ ((a * a) * (i * i))).
  - apply Qmult_le_0_compat; assumption.
  - apply near_scale; [exact factor_pos | exact A | exact N].
  - apply (near_eq (1 - u) 2 ((a * i) * (a * i)) _ (rnd (a * i) * rnd (a * i)) _);
      [ring | reflexivity | apply near_rnd_sq].
Qed.

(** The squared length takes three roundings on top of each square. *)
Lemma lengthSqR_near v :
  near (1 - u) 3 (Vector3.lengthSq v) (Vector3_lengthSqR rnd v).
Proof.
  pose proof factor_pos as Wp.
  unfold Vector3.lengthSq, Vector3_lengthSqR.
  set (xx := Vector3.x v * Vector3.x v). set (yy := Vector3.y v * Vector3.y v).
  set (zz := Vector3.z v * Vector3.z v).
  assert (X : 0 <= xx) by (unfold xx; nra).
  assert (Y : 0 <= yy) by (unfold yy; nra).
  assert (Z : 0 <= zz) by (unfold zz; nra).
  pose proof (near_add (1 - u) 1 _ _ _ _ (near_rnd xx X) (near_rnd yy Y)) as N2.
  assert (XY : 0 <= xx + yy) by lra.
  pose proof (near_nonneg (1 - u) Wp 1 _ _ N2 XY) as XY'.
  pose proof (near_trans (1 - u) Wp 1 1 _ _ _ XY N2 (near_rnd _ XY')) as N4.
  pose proof (near_more (1 - u) Wp factor_le_1 1 1 _ _ Z (near_rnd zz Z)) as N5.
  pose proof (near_add (1 - u) 2 _ _ _ _ N4 N5) as N6. cbn [Nat.add] in N6.
  assert (L : 0 <= xx + yy + zz) by lra.
  pose proof (near_nonneg (1 - u) Wp 2 _ _ N6 L) as L'.
  exact (near_trans (1 - u) Wp 2 1 _ _ _ L N6 (near_rnd _ L')).
Qed.

(** With a square root good to the same relative error, the rounded
    [normalize] of a vector that is not zero has squared length 1 up to nine
    roundings. *)
Lemma normalizeR_unit v :
  0 < Vector3.lengthSq v ->
  0 < Math_sqrt (Vector3_lengthSqR rnd v) ->
  near (1 - u) 2 (Vector3_lengthSqR rnd v)
       (Math_sqrt (Vector3_lengthSqR rnd v) * Math_sqrt (Vector3_lengthSqR rnd v)) ->
  near (1 - u) 9 1
       (Vector3.dot (Vector3_normalizeR rnd v) (Vector3_normalizeR rnd v)).
Proof.
  intros P Lp Ns. pose proof factor_pos as Wp.
  pose proof (lengthSqR_near v) as N8.
  unfold Vector3_normalizeR.
  set (len := Math_sqrt (Vector3_lengthSqR rnd v)) in *.
  assert (Nz : ~ len == 0) by lra.
  unfold num_or. apply Qeq_bool_false in Nz as Nz'. rewrite Nz'.
  set (l := Vector3.lengthSq v) in *.
  assert (L0 : 0 <= l) by lra.
  pose proof (near_trans (1 - u) Wp 3 2 _ _ _ L0 N8 Ns) as N10. cbn [Nat.add] in N10.
  pose proof (near_inv (1 - u) Wp 5 _ _ P N10) as N12.
  assert (Il : 0 < / l) by now apply Qinv_lt_0_compat.
  assert (Il0 : 0 <= / l) by lra.
  set (inv := rnd (1 / len)).
  assert (N11 : near (1 - u) 2 (/ (len * len)) (inv * inv)).
  { apply (near_eq (1 - u) 2 ((1 / len) * (1 / len)) _ (inv * inv) _);
      [field; exact Nz | reflexivity | apply near_rnd_sq]. }
  pose proof (near_trans (1 - u) Wp 5 2 _ _ _ Il0 N12 N11) as N13. cbn [Nat.add] in N13.
  unfold Vector3.dot. cbn [Vector3.x Vector3.y Vector3.z].
  pose proof (near_component 7 (Vector3.x v) _ _ Il0 N13) as Cx.
  pose proof (near_component 7 (Vector3.y v) _ _ Il0 N13) as Cy.
  pose proof (near_component 7 (Vector3.z v) _ _ Il0 N13) as Cz.
  cbn [Nat.add] in Cx, Cy, Cz.
  pose proof (near_add (1 - u) 9 _ _ _ _ (near_add (1 - u) 9 _ _ _ _ Cx Cy) Cz) as Sum.
  refine (near_eq (1 - u) 9 _ _ _ _ _ _ Sum); [| reflexivity].
  unfold l, Vector3.lengthSq. field.
  fold (Vector3.lengthSq v). fold l. lra.
Qed.

End RoundedNormalize.

Section Fire.
Context `{Host}.

Lemma fired_closed ship reticle now random s :
  fired ship reticle now random s =
  if Qltb (now - Store.lastFireTime s) CONFIG.FIRE_RATE then s
  else Store.with_projectiles
         (Store.projectiles s ++
          [Projectile.mk (now + random) ship
             (Vector3_normalize (Vector3.subVectors reticle ship))])
         (Store.with_lastFireTime now s).
Proof.
  unfold fired, fireProjectile. run_block.
  destruct (Qltb (now - Store.lastFireTime s) CONFIG.FIRE_RATE); destruct s; reflexivity.
Qed.

(** [normalize] divides by the length the host's square root returns (by 1
    when that is 0): scaled back by it the result is the vector, and its
    squared length is the vector's over the square of that length. *)
Lemma normalize_scaled v :
  let len := num_or (Math_sqrt (Vector3.lengthSq v)) 1 in
  ~ len == 0 /\
  Vector3.eqv (Vector3.multiplyScalar (Vector3_normalize v) len) v /\
  Vector3.dot (Vector3_normalize v) (Vector3_normalize v) * (len * len)
    == Vector3.lengthSq v.
Proof.
  cbv zeta. unfold Vector3_normalize, Vector3_length.
  set (len := num_or (Math_sqrt (Vector3.lengthSq v)) 1).
  assert (Nz : ~ len == 0).
  { unfold len, num_or.
    destruct (Qeq_bool (Math_sqrt (Vector3.lengthSq v)) 0) eqn:E.
    - intro Z. discriminate Z.
    - now apply Qeq_bool_false in E. }
  split; [exact Nz |].
  destruct v as [x y z].
  unfold Vector3.divideScalar, Vector3.multiplyScalar, Vector3.dot, Vector3.eqv,
    Vector3.lengthSq.
  cbn [Vector3.x Vector3.y Vector3.z].
  split; [repeat split; field; exact Nz | field; exact Nz].
Qed.

(** The reticle is [RETICLE_DISTANCE] ahead of the ship: the aim vector of
    the controller is never zero. *)
Lemma reticle_ahead c input :
  0 < Vector3.lengthSq (Vector3.subVectors (reticlePosition c input) (shipPosition c)).
Proof.
  unfold reticlePosition, Vector3.subVectors, Vector3.lengthSq, CONFIG.RETICLE_DISTANCE.
  cbn [Vector3.x Vector3.y Vector3.z].
  set (sx := Vector3.x (shipPosition c)). set (sy := Vector3.y (shipPosition c)).
  set (sz := Vector3.z (shipPosition c)).
  set (a := Input.aimX input). set (b := Input.aimY input).
  assert (0 <= (a * 15) * (a * 15)) by nra.
  assert (0 <= (b * 10) * (b * 10)) by nra.
  nra.
Qed.

(** Two attempts in a row add at most one projectile when the first is
    dropped or the second comes too early, and two when both pass the gate. *)
Lemma fired_twice ship reticle now random ship2 reticle2 now2 random2 s :
  let s'' := fired ship2 reticle2 now2 random2 (fired ship reticle now random s) in
  (now2 - now < CONFIG.FIRE_RATE ->
   (List.length (Store.projectiles s'') <= List.length (Store.projectiles s) + 1)%nat) /\
  (now - Store.lastFireTime s < CONFIG.FIRE_RATE ->
   (List.length (Store.projectiles s'') <= List.length (Store.projectiles s) + 1)%nat) /\
  (CONFIG.FIRE_RATE <= now - Store.lastFireTime s ->
   CONFIG.FIRE_RATE <= now2 - now ->
   List.length (Store.projectiles s'') = (List.length (Store.projectiles s) + 2)%nat).
Proof.
  cbv zeta. rewrite !fired_closed.
  destruct (Qltb (now - Store.lastFireTime s) CONFIG.FIRE_RATE) eqn:G1.
  - (* the first attempt is dropped *)
    assert (One : (List.length
                     (Store.projectiles
                        (if Qltb (now2 - Store.lastFireTime s) CONFIG.FIRE_RATE then s
                         else Store.with_projectiles
                                (Store.projectiles s ++
                                 [Projectile.mk (now2 + random2) ship2
                                    (Vector3_normalize (Vector3.subVectors reticle2 ship2))])
                                (Store.with_lastFireTime now2 s)))
                   <= List.length (Store.projectiles s) + 1)%nat).
    { destruct (Qltb (now2 - Store.lastFireTime s) CONFIG.FIRE_RATE);
        destruct s; cbn; rewrite ?length_app; cbn; lia. }
    split; [intros _; exact One |]. split; [intros _; exact One |].
    intro G. qprop. lra.
  - (* the first attempt fires *)
    assert (L : Store.lastFireTime
                  (Store.with_projectiles
                     (Store.projectiles s ++
                      [Projectile.mk (now + random) ship
                         (Vector3_normalize (Vector3.subVectors reticle ship))])
                     (Store.with_lastFireTime now s)) = now)
      by (destruct s; reflexivity).
    rewrite L. split; [| split].
    + intro G2. apply Qltb_lt in G2. rewrite G2.
      destruct s; cbn. rewrite length_app. cbn. lia.
    + intro G. qprop. lra.
    + intros _ G2. apply Qltb_ge in G2. rewrite G2.
      destruct s; cbn. rewrite !length_app. cbn. lia.
Qed.

(** C5. A fire attempt at [now] closer than [FIRE_RATE] to the last shot
    leaves the store as it is; otherwise it records [now] as the last shot and
    appends exactly one projectile, at the ship, whose direction is
    [normalize] of the vector from the ship to the reticle: that vector
    divided by the length the square root returns for it, which is not 0.
    The direction is a unit vector up to rounding: with every operation and
    the square root good to the relative error [u], its squared length is 1
    within the factor [(1 - u) ^ 9] (the aim vector of the controller is never
    zero).  Of two attempts less than [FIRE_RATE] apart at most one fires,
    and so when the first is dropped; when the first fires and the second
    comes [FIRE_RATE] or more later, both fire. *)
Theorem fire_rate_gate (ship reticle : Vector3.t) (now random : Q) (s : Store.t) :
  let s' := fired ship reticle now random s in
  let aim := Vector3.subVectors reticle ship in
  let len := num_or (Math_sqrt (Vector3.lengthSq aim)) 1 in
  (now - Store.lastFireTime s < CONFIG.FIRE_RATE -> s' = s) /\
  (CONFIG.FIRE_RATE <= now - Store.lastFireTime s ->
   Store.lastFireTime s' = now /\
   exists p,
     Store.projectiles s' = Store.projectiles s ++ [p] /\
     Projectile.position p = ship /\
     Projectile.direction p = Vector3_normalize aim /\
     ~ len == 0 /\
     Vector3.eqv (Vector3.multiplyScalar (Projectile.direction p) len) aim /\
     Vector3.dot (Projectile.direction p) (Projectile.direction p) * (len * len)
       == Vector3.lengthSq aim) /\
  (Vector3_normalize aim = Vector3_normalizeR unrounded aim /\
   forall (rnd : Q -> Q) (u : Q),
     0 <= u -> u < 1 ->
     (forall t, Qabs (rnd t - t) <= u * Qabs t) ->
     0 < Vector3.lengthSq aim ->
     0 < Math_sqrt (Vector3_lengthSqR rnd aim) ->
     near (1 - u) 2 (Vector3_lengthSqR rnd aim)
          (Math_sqrt (Vector3_lengthSqR rnd aim) * Math_sqrt (Vector3_lengthSqR rnd aim)) ->
     near (1 - u) 9 1
          (Vector3.dot (Vector3_normalizeR rnd aim) (Vector3_normalizeR rnd aim))) /\
  (forall c input,
      0 < Vector3.lengthSq
            (Vector3.subVectors (reticlePosition c input) (shipPosition c))) /\
  (forall ship2 reticle2 now2 random2,
      let s'' := fired ship2 reticle2 now2 random2 s' in
      (now2 - now < CONFIG.FIRE_RATE ->
       (List.length (Store.projectiles s'') <= List.length (Store.projectiles s) + 1)%nat) /\
      (now - Store.lastFireTime s < CONFIG.FIRE_RATE ->
       (List.length (Store.projectiles s'') <= List.length (Store.projectiles s) + 1)%nat) /\
      (CONFIG.FIRE_RATE <= now - Store.lastFireTime s ->
       CONFIG.FIRE_RATE <= now2 - now ->
       List.length (Store.projectiles s'') = (List.length (Store.projectiles s) + 2)%nat)).
Proof.
  cbv zeta.
  split; [| split; [| split; [| split]]].
  - rewrite fired_closed. intro G. apply Qltb_lt in G. now rewrite G.
  - rewrite fired_closed. intro G. apply Qltb_ge in G. rewrite G.
    split; [destruct s; reflexivity |].
    eexists. split; [destruct s; reflexivity |].
    split; [reflexivity |]. split; [reflexivity |].
    cbn [Projectile.direction].
    exact (normalize_scaled (Vector3.subVectors reticle ship)).
  - split; [reflexivity |].
    intros rnd u U0 U1 Err. now apply normalizeR_unit.
  - exact reticle_ahead.
  - intros ship2 reticle2 now2 random2.
    exact (fired_twice ship reticle now random ship2 reticle2 now2 random2 s).
Qed.

End Fire.

(** C5 at work: from the origin at a reticle 15 to the right and 50 ahead, a
    shot at 1000 ms and a second one 100 ms later.  The host's square root of
    2725 is 52: the direction is (15/52, 0, -50/52).  Rounding every
    operation down by a thousandth, the squared length of the direction is 1
    within [(99/100) ^ 9]. *)
Lemma fire_rate_gate_witness :
  let ship := Vector3.mk 0 0 0 in
  let reticle := Vector3.mk 15 0 (-50) in
  let s' := fired (H := demoHost) ship reticle 1000 (1 # 2) mounted0 in
  let rounded :=
    Vector3_normalizeR (H := demoHost) (roundDown (1 # 1000))
                       (Vector3.subVectors reticle ship) in
  Store.lastFireTime s' = 1000 /\
  (exists p, Store.projectiles s' = [p] /\
             Vector3.eqv (Vector3.multiplyScalar (Projectile.direction p) 52)
                         (Vector3.mk 15 0 (-50)) /\
             Vector3.dot (Projectile.direction p) (Projectile.direction p) * (52 * 52)
               == 2725) /\
  near (1 - (1 # 100)) 9 1 (Vector3.dot rounded rounded) /\
  List.length (Store.projectiles (fired (H := demoHost) ship reticle 1100 (1 # 4) s')) = 2%nat.
Proof.
  cbv zeta.
  destruct (fire_rate_gate (H := demoHost) (Vector3.mk 0 0 0) (Vector3.mk 15 0 (-50))
              1000 (1 # 2) mounted0) as (_ & Shot & [_ Unit] & _ & Two).
  assert (G : CONFIG.FIRE_RATE <= 1000 - Store.lastFireTime mounted0)
    by (vm_compute; discriminate).
  destruct (Shot G) as (Last & p & Ps & _ & _ & _ & Scaled & Dot).
  split; [exact Last |]. split; [| split].
  - exists p. split; [exact Ps |]. split; [exact Scaled | exact Dot].
  - apply (Unit (roundDown (1 # 1000)) (1 # 100)).
    + discriminate.
    + reflexivity.
    + intro t. apply Qle_trans with ((1 # 1000) * Qabs t).
      * apply roundDown_error. discriminate.
      * apply Qmult_le_compat_r; [discriminate | apply Qabs_nonneg].
    + reflexivity.
    + reflexivity.
    + vm_compute. split; discriminate.
  - apply (Two (Vector3.mk 0 0 0) (Vector3.mk 15 0 (-50)) 1100 (1 # 4));
      [exact G | vm_compute; discriminate].
Defined.

(** C5, the other way round.  Two attempts [FIRE_RATE] apart add one
    projectile, not two, when the first of them is dropped: after a shot at
    1000 ms, attempts at 1050 ms and 1150 ms.  And on binary64 the direction
    is a unit vector only up to rounding: full right, the squared length of
    [normalize] of (15, 0, -50) is not 1 (it is above 1 by less than 2^-54). *)
Lemma dropped_first_attempt_and_rounded_direction :
  let ship := Vector3.mk 0 0 0 in
  let reticle := Vector3.mk 0 0 (-50) in
  let s := fired (H := demoHost) ship reticle 1000 (1 # 2) mounted0 in
  let s'' :=
    fired (H := demoHost) ship reticle 1150 (1 # 4)
      (fired (H := demoHost) ship reticle 1050 (1 # 3) s) in
  let direction := Binary64.normalize Binary64.aimRight in
  (CONFIG.FIRE_RATE <= 1150 - 1050 /\
   List.length (Store.projectiles s) = 1%nat /\
   List.length (Store.projectiles s'') = 2%nat) /\
  (1 < Binary64.exactLengthSq direction /\
   Binary64.exactLengthSq direction < 1 + (1 # 18014398509481984)).
Proof. vm_compute. repeat split. all: intro D; discriminate D. Qed.

(* ------------------------------------------------------------------------- *)
(** ** Projectiles: lifetime *)

Lemma Qeq_bool_right a b c : b == c -> Qeq_bool a b = Qeq_bool a c.
Proof.
  intro E. destruct (Qeq_bool a c) eqn:C.
  - apply Qeq_bool_iff in C. apply Qeq_bool_iff. now rewrite E.
  - apply Qeq_bool_false in C. apply Qeq_bool_false. now rewrite E.
Qed.

Lemma expireAll_cons k comps now l :
  expireAll (k :: comps) now l =
  expireAll comps now
    (if Projectile_expired k now
     then filter (fun q => negb (Qeq_bool (Projectile.id q) (ProjectileC.id k))) l
     else l).
Proof. reflexivity. Qed.

Lemma expireAll_In comps now : forall l q,
  In q (expireAll comps now l) <->
  In q l /\ forall k, In k comps -> Projectile_expired k now = true ->
                      Qeq_bool (Projectile.id q) (ProjectileC.id k) = false.
Proof.
  induction comps as [| k comps IH]; intros l q.
  - cbn. split; [intro I; split; [exact I | intros k []] | tauto].
  - rewrite expireAll_cons, IH.
    destruct (Projectile_expired k now) eqn:X.
    + rewrite filter_In, negb_true_iff. split.
      * intros [[I Nk] A]. split; [exact I |].
        intros k' [<- | I'] X'; auto.
      * intros [I A]. split; [split; [exact I |] |]; cbn in A; auto.
    + split.
      * intros [I A]. split; [exact I |]. intros k' [<- | I'] X'; [congruence | auto].
      * intros [I A]. split; [exact I |]. cbn in A. auto.
Qed.

Lemma find_sameId (comps : list ProjectileC.t) a b :
  a == b ->
  find (fun k => Qeq_bool (ProjectileC.id k) a) comps =
  find (fun k => Qeq_bool (ProjectileC.id k) b) comps.
Proof.
  intro E. induction comps as [| k comps IH]; [reflexivity |].
  cbn [find]. rewrite (Qeq_bool_right _ a b E), IH. reflexivity.
Qed.

Lemma find_some_sameId (comps : list ProjectileC.t) a k :
  In k comps -> ProjectileC.id k == a ->
  exists k0, find (fun k => Qeq_bool (ProjectileC.id k) a) comps = Some k0 /\
             In k0 comps /\ ProjectileC.id k0 == a.
Proof.
  intros I E. destruct (find (fun k => Qeq_bool (ProjectileC.id k) a) comps) as [k0 |] eqn:F.
  - exists k0. split; [reflexivity |]. apply find_some in F as [I0 E0].
    apply Qeq_bool_iff in E0. now split.
  - eapply find_none in F; [| exact I]. cbn in F. apply Qeq_bool_false in F. contradiction.
Qed.

Section Lifetime.
Context `{Host}.

Lemma projectiles_gameClosed_incl c e p :
  In p (Store.projectiles c) -> In p (Store.projectiles (gameClosed c e)).
Proof.
  intro I. unfold gameClosed. cbn [Store.projectiles].
  destruct (fires c (inputOf e) (Env.now e)); [apply in_or_app; now left | exact I].
Qed.

Lemma expired_iff k now :
  Projectile_expired k now = true <->
  CONFIG.PROJECTILE_LIFETIME < now - ProjectileC.startTime k.
Proof. unfold Projectile_expired, Qgtb. apply Qltb_lt. Qed.

Lemma renderProjectile_id old t q :
  ProjectileC.id (renderProjectile old t q) = Projectile.id q.
Proof.
  unfold renderProjectile.
  destruct (find _ old); reflexivity.
Qed.

Lemma tracked_step s e p T :
  tracked s p T -> alive T e -> tracked (step s e) p T.
Proof.
  intros (I & (k & Ik & Ek) & Same) A.
  assert (I' : In p (Store.projectiles (step s e))).
  { rewrite step_projectiles. unfold nextProjectiles. apply expireAll_In.
    split; [now apply projectiles_gameClosed_incl |].
    intros k' Ik' X. apply Qeq_bool_false. intro E.
    apply expired_iff in X. rewrite (Same k' Ik') in X by (now symmetry).
    unfold alive in A. lra. }
  destruct (find_some_sameId (Store.mounted s) (Projectile.id p) k Ik Ek)
    as (k0 & F & I0 & E0).
  split; [exact I' |]. split.
  - exists (renderProjectile (Store.mounted s) (Env.renderNow e) p). split.
    + rewrite step_mounted. apply in_map. now rewrite <- step_projectiles.
    + now rewrite renderProjectile_id.
  - intros k' Ik' Ek'. rewrite step_mounted in Ik'.
    apply in_map_iff in Ik' as (q & <- & Iq).
    rewrite renderProjectile_id in Ek'.
    unfold renderProjectile.
    rewrite (find_sameId (Store.mounted s) _ _ Ek'), F.
    cbn [ProjectileC.startTime]. now apply Same.
Qed.

Lemma tracked_run es : forall s p T,
  tracked s p T -> Forall (alive T) es -> tracked (run s es) p T.
Proof.
  induction es as [| e es IH]; intros s p T Tr A; [exact Tr |].
  inversion A as [| e' es' Ae Aes]; subst.
  cbn [run fold_left]. fold (run (step s e) es).
  apply IH; [| exact Aes]. now apply tracked_step.
Qed.

Lemma tracked_expires s e p T :
  tracked s p T -> CONFIG.PROJECTILE_LIFETIME < Env.now e - T ->
  forall q, In q (Store.projectiles (step s e)) ->
            ~ Projectile.id q == Projectile.id p.
Proof.
  intros (_ & (k & Ik & Ek) & Same) X q Iq E.
  rewrite step_projectiles in Iq. unfold nextProjectiles in Iq.
  apply expireAll_In in Iq as [_ Nk].
  specialize (Nk k Ik). rewrite expired_iff, (Same k Ik Ek) in Nk.
  specialize (Nk X). apply Qeq_bool_false in Nk. apply Nk.
  now rewrite E, Ek.
Qed.

Lemma reachable_rendered s : reachable s -> rendered s.
Proof.
  destruct 1 as [s M | s e R].
  - left. unfold GameController_mount in M. cbn in M. injection M as <-. now split.
  - right. exists (Store.mounted s), (Env.renderNow e).
    now rewrite step_mounted, step_projectiles.
Qed.

Lemma rendered_tracked s p k :
  rendered s -> In p (Store.projectiles s) -> In k (Store.mounted s) ->
  ProjectileC.id k == Projectile.id p ->
  tracked s p (ProjectileC.startTime k).
Proof.
  intros [[M P] | (old & t & M)] Ip Ik Ek.
  - rewrite P in Ip. destruct Ip.
  - split; [exact Ip |]. split; [now exists k |].
    intros k' Ik' Ek'. rewrite M in Ik, Ik'.
    apply in_map_iff in Ik as (q & <- & Iq).
    apply in_map_iff in Ik' as (q' & <- & Iq').
    rewrite renderProjectile_id in Ek, Ek'.
    unfold renderProjectile.
    rewrite (find_sameId old (Projectile.id q') (Projectile.id q))
      by (now rewrite Ek, Ek').
    destruct (find _ old); reflexivity.
Qed.

Lemma fires_gap c input now :
  fires c input now = true -> Store.lastFireTime c + CONFIG.FIRE_RATE <= now.
Proof.
  unfold fires. rewrite andb_true_iff, negb_true_iff.
  intros [_ G]. apply Qltb_ge in G. lra.
Qed.

Lemma nextProjectiles_origin c e q :
  In q (nextProjectiles c e) ->
  In q (Store.projectiles c) \/
  fires c (inputOf e) (Env.now e) = true /\
  q = newProjectile c (inputOf e) (Env.now e) (Env.random e).
Proof.
  unfold nextProjectiles. intros [I _]%expireAll_In.
  unfold gameClosed in I. cbn [Store.projectiles] in I.
  destruct (fires c (inputOf e) (Env.now e)); [| now left].
  apply in_app_or in I as [I | [<- | []]]; [now left | right; now split].
Qed.

Lemma idsBelow_step s e : fairRandom e -> idsBelow s -> idsBelow (step s e).
Proof.
  intros [_ R1] B q I. rewrite step_projectiles in I. rewrite step_lastFireTime.
  apply nextProjectiles_origin in I as [I | [F ->]].
  - specialize (B q I).
    destruct (fires s (inputOf e) (Env.now e)) eqn:F; [| exact B].
    apply fires_gap in F. unfold CONFIG.FIRE_RATE in F. lra.
  - rewrite F. cbn [newProjectile Projectile.id]. lra.
Qed.

Lemma idsBelow_run es : forall s,
  Forall fairRandom es -> idsBelow s -> idsBelow (run s es).
Proof.
  induction es as [| e es IH]; intros s F B; [exact B |].
  inversion F as [| e' es' Fe Fes]; subst.
  cbn [run fold_left]. fold (run (step s e) es).
  apply IH; [exact Fes |]. now apply idsBelow_step.
Qed.

Lemma below_step s e x :
  x < Store.lastFireTime s + 1 -> x < Store.lastFireTime (step s e) + 1.
Proof.
  intro B. rewrite step_lastFireTime.
  destruct (fires s (inputOf e) (Env.now e)) eqn:F; [| exact B].
  apply fires_gap in F. unfold CONFIG.FIRE_RATE in F. lra.
Qed.

Lemma below_run es : forall s x,
  x < Store.lastFireTime s + 1 -> x < Store.lastFireTime (run s es) + 1.
Proof.
  induction es as [| e es IH]; intros s x B; [exact B |].
  cbn [run fold_left]. fold (run (step s e) es).
  apply IH. now apply below_step.
Qed.

Lemma gone_step s e x : fairRandom e -> gone s x -> gone (step s e) x.
Proof.
  intros [R0 _] [G B]. split; [| now apply below_step].
  intros q I. rewrite step_projectiles in I.
  apply nextProjectiles_origin in I as [I | [F ->]]; [now apply G |].
  apply fires_gap in F. unfold CONFIG.FIRE_RATE in F.
  cbn [newProjectile Projectile.id]. lra.
Qed.

Lemma gone_run es : forall s x,
  Forall fairRandom es -> gone s x -> gone (run s es) x.
Proof.
  induction es as [| e es IH]; intros s x F G; [exact G |].
  inversion F as [| e' es' Fe Fes]; subst.
  cbn [run fold_left]. fold (run (step s e) es).
  apply IH; [exact Fes |]. now apply gone_step.
Qed.

Lemma idsBelow_mounted0 : idsBelow mounted0.
Proof. intros q []. Qed.

(** C6, as the code has it. Take a projectile of the array after any run of
    frames from the mounted controller, and its component, mounted at [T].
    After every run of frames sampled at times [t] with
    [t - T <= PROJECTILE_LIFETIME] (the time [T + PROJECTILE_LIFETIME] itself
    included) the projectile is still in the array; the first frame sampled
    at a time with [t - T > PROJECTILE_LIFETIME] removes it; and where
    [Math.random()] is in [0, 1) its id is in the array at no later frame. *)
Theorem projectile_lifetime (es0 : list Env.t) (p : Projectile.t) (k : ProjectileC.t) :
  let s := run mounted0 es0 in
  In p (Store.projectiles s) ->
  In k (Store.mounted s) ->
  ProjectileC.id k == Projectile.id p ->
  let T := ProjectileC.startTime k in
  (forall es, Forall (alive T) es -> In p (Store.projectiles (run s es))) /\
  (forall es e,
      Forall (alive T) es ->
      CONFIG.PROJECTILE_LIFETIME < Env.now e - T ->
      forall q, In q (Store.projectiles (step (run s es) e)) ->
                ~ Projectile.id q == Projectile.id p) /\
  (Forall fairRandom es0 ->
   forall es e es',
      Forall (alive T) es ->
      CONFIG.PROJECTILE_LIFETIME < Env.now e - T ->
      Forall fairRandom es' ->
      forall q, In q (Store.projectiles (run (step (run s es) e) es')) ->
                ~ Projectile.id q == Projectile.id p).
Proof.
  intros s Ip Ik Ek T.
  assert (Tr : tracked s p T).
  { apply rendered_tracked; try assumption.
    apply reachable_rendered, reachable_run, reachable_mounted0. }
  split; [| split].
  - intros es A. now apply (tracked_run es s p T).
  - intros es e A X. apply (tracked_expires (run s es) e p T); [| exact X].
    now apply tracked_run.
  - intros F0 es e es' A X F'.
    apply (gone_run es'); [exact F' |]. split.
    + apply (tracked_expires (run s es) e p T); [| exact X].
      now apply tracked_run.
    + apply below_step, below_run.
      apply (idsBelow_run es0 mounted0 F0 idsBelow_mounted0). exact Ip.
Qed.

End Lifetime.

Lemma shot_mounted :
  Store.projectiles (run (H := demoHost) mounted0 [shot]) = [shotProjectile] /\
  Store.mounted (run (H := demoHost) mounted0 [shot]) = [shotComponent].
Proof. split; vm_compute; reflexivity. Qed.

(** C6 as stated fails at the boundary: the projectile shot at 1000 ms,
    whose component mounted at [T = 1005], is still in the array after the
    frame sampled at exactly [T + PROJECTILE_LIFETIME = 3005] (and after one
    sampled at 3000, should [T] be read as the time of the shot). *)
Lemma projectile_active_at_lifetime_boundary :
  let s := run (H := demoHost) mounted0 [shot] in
  Store.projectiles s = [shotProjectile] /\
  Store.mounted s = [shotComponent] /\
  Env.now (idleEnv 3005)
    == ProjectileC.startTime shotComponent + CONFIG.PROJECTILE_LIFETIME /\
  In shotProjectile (Store.projectiles (step (H := demoHost) s (idleEnv 3005))) /\
  Env.now (idleEnv 3000) == Env.now shot + CONFIG.PROJECTILE_LIFETIME /\
  In shotProjectile (Store.projectiles (step (H := demoHost) s (idleEnv 3000))).
Proof.
  cbv zeta. split; [apply shot_mounted |]. split; [apply shot_mounted |].
  split; [reflexivity |].
  split; [vm_compute; left; reflexivity |].
  split; [reflexivity |].
  vm_compute. left. reflexivity.
Qed.

(** C6 at work on that projectile: in the array at 3005, removed at 3006. *)
Lemma projectile_lifetime_witness :
  let s := run (H := demoHost) mounted0 [shot] in
  In shotProjectile (Store.projectiles (run (H := demoHost) s [idleEnv 2000; idleEnv 3005])) /\
  (forall q,
      In q (Store.projectiles
              (step (H := demoHost)
                 (run (H := demoHost) s [idleEnv 2000; idleEnv 3005])
                 (idleEnv 3006))) ->
      ~ Projectile.id q == Projectile.id shotProjectile).
Proof.
  cbv zeta.
  destruct (projectile_lifetime (H := demoHost) [shot] shotProjectile shotComponent)
    as (Stays & Leaves & _).
  - rewrite (proj1 shot_mounted). now left.
  - rewrite (proj2 shot_mounted). now left.
  - reflexivity.
  - split.
    + apply Stays. repeat constructor; vm_compute; discriminate.
    + apply Leaves; [repeat constructor; vm_compute; discriminate | reflexivity].
Defined.

(* ------------------------------------------------------------------------- *)
(** ** Input merging *)

Lemma abs_zero x : x == 0 -> Math.abs x == 0.
Proof. intro E. unfold Math.abs. rewrite E. reflexivity. Qed.

Lemma deadzone_pos : 0 < deadzone.
Proof. reflexivity. Qed.

(** An axis: [applyDeadzone(stick || 0) || digital]. *)
Lemma axis_stick stick digital :
  deadzone <= Math.abs stick ->
  num_or (applyDeadzone (num_or stick 0)) digital = stick.
Proof.
  intro A.
  assert (Nz : Qeq_bool stick 0 = false).
  { apply Qeq_bool_false. intro Z. apply abs_zero in Z.
    pose proof deadzone_pos. lra. }
  unfold num_or at 2. rewrite Nz.
  unfold applyDeadzone. apply Qltb_ge in A. rewrite A.
  unfold num_or. now rewrite Nz.
Qed.

Lemma axis_digital stick digital :
  Math.abs stick < deadzone ->
  num_or (applyDeadzone (num_or stick 0)) digital = digital.
Proof.
  intro A. unfold num_or at 2.
  destruct (Qeq_bool stick 0) eqn:Z.
  - unfold applyDeadzone.
    assert (A0 : Qltb (Math.abs 0) deadzone = true) by reflexivity.
    rewrite A0. reflexivity.
  - unfold applyDeadzone. apply Qltb_lt in A. rewrite A. reflexivity.
Qed.

(** The vertical axes negate the stick: [applyDeadzone(-(stick || 0))]. *)
Lemma axis_stick_neg stick digital :
  deadzone <= Math.abs (- stick) ->
  num_or (applyDeadzone (- num_or stick 0)) digital = - stick.
Proof.
  intro A.
  assert (Nz : Qeq_bool stick 0 = false).
  { apply Qeq_bool_false. intro Z.
    assert (Z' : - stick == 0) by (rewrite Z; reflexivity).
    apply abs_zero in Z'. pose proof deadzone_pos. lra. }
  unfold num_or at 2. rewrite Nz.
  unfold applyDeadzone. apply Qltb_ge in A. rewrite A.
  unfold num_or.
  assert (Nz' : Qeq_bool (- stick) 0 = false).
  { apply Qeq_bool_false. intro Z. apply Qeq_bool_false in Nz. apply Nz. lra. }
  now rewrite Nz'.
Qed.

Lemma axis_digital_neg stick digital :
  Math.abs (- stick) < deadzone ->
  num_or (applyDeadzone (- num_or stick 0)) digital = digital.
Proof.
  intro A. unfold num_or at 2.
  destruct (Qeq_bool stick 0) eqn:Z.
  - unfold applyDeadzone.
    assert (A0 : Qltb (Math.abs (- 0)) deadzone = true) by reflexivity.
    rewrite A0. reflexivity.
  - unfold applyDeadzone. apply Qltb_lt in A. rewrite A. reflexivity.
Qed.

(** C8, as the code has it. On each axis the input is the analog value (the
    stick's x, or its y negated) when its magnitude is at least the deadzone
    0.15, the threshold included, and the digital value when it is below:
    -1, 0 or +1 from the movement keys, the pointer's coordinate for the aim,
    which is within -1..1 for a pointer inside the viewport.  Boost, dodge and
    fire are each the key or the pad's button. *)
Theorem input_merging (keys : Keys.t) (mouse : XY.t) (gp : Gamepad.t) :
  let input := useInputManager keys mouse gp in
  let keyX := if Keys.left keys then -1 else if Keys.right keys then 1 else 0 in
  let keyY := if Keys.up keys then 1 else if Keys.down keys then -1 else 0 in
  let leftX := XY.x (Gamepad.leftStick gp) in
  let leftY := - XY.y (Gamepad.leftStick gp) in
  let rightX := XY.x (Gamepad.rightStick gp) in
  let rightY := - XY.y (Gamepad.rightStick gp) in
  ((deadzone <= Math.abs leftX -> Input.moveX input = leftX) /\
   (Math.abs leftX < deadzone -> Input.moveX input = keyX)) /\
  ((deadzone <= Math.abs leftY -> Input.moveY input = leftY) /\
   (Math.abs leftY < deadzone -> Input.moveY input = keyY)) /\
  ((deadzone <= Math.abs rightX -> Input.aimX input = rightX) /\
   (Math.abs rightX < deadzone -> Input.aimX input = XY.x mouse)) /\
  ((deadzone <= Math.abs rightY -> Input.aimY input = rightY) /\
   (Math.abs rightY < deadzone -> Input.aimY input = XY.y mouse)) /\
  ((keyX = -1 \/ keyX = 0 \/ keyX = 1) /\ (keyY = -1 \/ keyY = 0 \/ keyY = 1)) /\
  (Input.boost input = Keys.boost keys || Buttons.boost (Gamepad.buttons gp) /\
   Input.dodge input = Keys.dodge keys || Buttons.dodge (Gamepad.buttons gp) /\
   Input.fire input = Keys.fire keys || Buttons.fire (Gamepad.buttons gp)) /\
  (forall clientX clientY innerWidth innerHeight,
      0 <= clientX <= innerWidth -> 0 < innerWidth ->
      0 <= clientY <= innerHeight -> 0 < innerHeight ->
      -1 <= XY.x (handleMouseMove clientX clientY innerWidth innerHeight) <= 1 /\
      -1 <= XY.y (handleMouseMove clientX clientY innerWidth innerHeight) <= 1).
Proof.
  cbv zeta. unfold useInputManager.
  cbn [Input.moveX Input.moveY Input.aimX Input.aimY Input.boost Input.dodge Input.fire].
  repeat match goal with |- _ /\ _ => split end.
  - apply axis_stick.
  - apply axis_digital.
  - apply axis_stick_neg.
  - apply axis_digital_neg.
  - apply axis_stick.
  - apply axis_digital.
  - apply axis_stick_neg.
  - apply axis_digital_neg.
  - destruct (Keys.left keys), (Keys.right keys); auto.
  - destruct (Keys.up keys), (Keys.down keys); auto.
  - apply orb_false_r.
  - apply orb_false_r.
  - apply orb_false_r.
  - intros cx cy w h [X0 X1] W [Y0 Y1] Hh.
    unfold handleMouseMove. cbn [XY.x XY.y].
    assert (0 <= cx / w <= 1).
    { split.
      - apply Qle_shift_div_l; [exact W | lra].
      - apply Qle_shift_div_r; [exact W | lra]. }
    assert (0 <= cy / h <= 1).
    { split.
      - apply Qle_shift_div_l; [exact Hh | lra].
      - apply Qle_shift_div_r; [exact Hh | lra]. }
    lra.
Qed.

(** C8 as stated fails on the threshold: a stick at exactly 0.15 does not
    exceed the deadzone, yet with no key pressed [moveX] is the stick's 0.15
    and not the keys' 0. *)
Lemma deadzone_boundary_takes_stick :
  let gp := Gamepad.mk (XY.mk (15 # 100) 0) (XY.mk 0 0) Buttons.initial in
  let input := useInputManager Keys.initial (XY.mk 0 0) gp in
  ~ deadzone < Math.abs (XY.x (Gamepad.leftStick gp)) /\
  Input.moveX input == 15 # 100 /\
  ~ Input.moveX input == 0.
Proof.
  cbv zeta. split; [| split].
  - vm_compute. discriminate.
  - reflexivity.
  - vm_compute. discriminate.
Qed.

(** C8 at work: a half-deflected stick wins over the keys, a resting one
    leaves the right key's +1. *)
Lemma input_merging_witness :
  Input.moveX (useInputManager rightKey (XY.mk 0 0)
                 (Gamepad.mk (XY.mk (- (1 # 2)) 0) (XY.mk 0 0) Buttons.initial))
  = - (1 # 2) /\
  Input.moveX (useInputManager rightKey (XY.mk 0 0) Gamepad.initial) = 1.
Proof.
  split.
  - apply (proj1 (proj1 (input_merging rightKey (XY.mk 0 0)
             (Gamepad.mk (XY.mk (- (1 # 2)) 0) (XY.mk 0 0) Buttons.initial)))).
    vm_compute. discriminate.
  - apply (proj2 (proj1 (input_merging rightKey (XY.mk 0 0) Gamepad.initial))).
    reflexivity.
Defined.

(* ------------------------------------------------------------------------- *)
(** ** Path construction *)

(** C9, as the code has it. Building the curve never fails: the constructor
    keeps whatever points it is given, and [createLevelSpline], which takes no
    input, builds the open Catmull-Rom curve through its ten control points,
    so the controller always mounts. *)
Theorem spline_construction_total :
  (forall points closed curveType tension,
      new_CatmullRomCurve3 points closed curveType tension =
      Normal (CatmullRomCurve3.mk points closed curveType tension)) /\
  (exists spline,
      createLevelSpline = Normal spline /\
      List.length (CatmullRomCurve3.points spline) = 10%nat /\
      CatmullRomCurve3.closed spline = false /\
      CatmullRomCurve3.curveType spline = "catmullrom"%string /\
      CatmullRomCurve3.tension spline = 1 # 2) /\
  GameController_mount = Normal mounted0.
Proof.
  split; [reflexivity |]. split; [| reflexivity].
  eexists. split; [reflexivity |]. repeat split.
Qed.

(** C9 as stated fails: a curve built from no control point at all is built,
    no error is thrown. *)
Lemma empty_path_is_accepted :
  (List.length (@nil Vector3.t) < 2)%nat /\
  new_CatmullRomCurve3 [] false "catmullrom" (1 # 2) =
  Normal (CatmullRomCurve3.mk [] false "catmullrom" (1 # 2)) /\
  new_CatmullRomCurve3 [] false "catmullrom" (1 # 2) <> Throw "InvalidPathError".
Proof.
  split; [cbn; lia |]. split; [reflexivity | discriminate].
Qed.

(* ------------------------------------------------------------------------- *)
(** ** The state report *)

Section Report.
Context `{Host}.

(** C10, as the code has it. On every frame with the sink connected the
    controller hands it one object of exactly four properties: [position]
    (the ship's position), [isInvulnerable], [boostActive] and [speed], each
    as of the last render; without a sink nothing is handed over. *)
Theorem state_report (c : Store.t) (e : Env.t) :
  (Env.onStateUpdate e = true ->
   emitted c e =
   Some [ ("position"%string, VVector3 (shipPosition c));
          ("isInvulnerable"%string, VBoolean (Store.isInvulnerable c));
          ("boostActive"%string, VBoolean (Store.boostActive c));
          ("speed"%string, VNumber (Store.currentSpeed c)) ]) /\
  (Env.onStateUpdate e = false -> emitted c e = None).
Proof.
  rewrite emitted_closed. split; intros ->; reflexivity.
Qed.

End Report.

(** C10 as stated fails: with a projectile in flight, the object handed to
    the sink has the four properties named below and carries neither an
    orientation nor a list of projectiles. *)
Lemma report_lacks_orientation_and_projectiles :
  let s := run (H := demoHost) mounted0 [shot] in
  Store.projectiles s = [shotProjectile] /\
  exists obj,
    emitted (H := demoHost) s (idleEnv 1016) = Some obj /\
    map fst obj = ["position"; "isInvulnerable"; "boostActive"; "speed"]%string /\
    forall name v, In (name, v) obj ->
      (forall l, v <> VArray l) /\ (forall r, v <> VEuler r).
Proof.
  cbv zeta. split; [apply shot_mounted |].
  eexists. split; [rewrite (emitted_closed (H := demoHost)); reflexivity |].
  split; [reflexivity |].
  intros name v [E | [E | [E | [E | []]]]];
    apply (f_equal snd) in E; cbn [snd] in E; rewrite <- E;
    split; intros ? D; discriminate D.
Qed.

(** C10 at work: the report of the first frame. *)
Lemma state_report_witness :
  emitted (H := demoHost) mounted0 (idleEnv 1000) =
  Some [ ("position"%string, VVector3 (shipPosition (H := demoHost) mounted0));
         ("isInvulnerable"%string, VBoolean false);
         ("boostActive"%string, VBoolean false);
         ("speed"%string, VNumber 15) ].
Proof.
  apply (proj1 (state_report (H := demoHost) mounted0 (idleEnv 1000))).
  reflexivity.
Defined.

(* ========================================================================= *)
(** * Further properties *)

(* ------------------------------------------------------------------------- *)
(** ** Ability episodes *)

Section Episodes.
Context `{Host}.

Lemma step_rollProgress c e :
  Store.rollProgress (step c e) =
  if Store.isRolling c then rollProgressAt c (Env.now e)
  else if dodgeStarts c (inputOf e) then 0 else Store.rollProgress c.
Proof. now rewrite step_closed. Qed.

Lemma step_dodgeStartTime c e :
  Store.dodgeStartTime (step c e) =
  if dodgeStarts c (inputOf e) then Env.now e else Store.dodgeStartTime c.
Proof. now rewrite step_closed. Qed.

Lemma step_currentSpeed c e : Store.currentSpeed (step c e) = speedOf c.
Proof. now rewrite step_closed. Qed.

Lemma run_cons s e es : run s (e :: es) = run (step s e) es.
Proof. reflexivity. Qed.

Lemma run_snoc s es e : run s (es ++ [e]) = step (run s es) e.
Proof. unfold run. now rewrite fold_left_app. Qed.




(** A roll in progress, started at [t0]. *)
Lemma rolling_step s e t0 :
  Store.isRolling s = true -> Store.isInvulnerable s = true ->
  Store.dodgeStartTime s = t0 ->
  Env.now e - t0 < CONFIG.DODGE_DURATION ->
  Store.isRolling (step s e) = true /\ Store.isInvulnerable (step s e) = true /\
  Store.dodgeStartTime (step s e) = t0 /\
  Store.rollProgress (step s e) = (Env.now e - t0) / CONFIG.DODGE_DURATION.
Proof.
  intros R I S L.
  rewrite step_isRolling, step_isInvulnerable, step_dodgeStartTime, step_rollProgress.
  assert (D : dodgeStarts s (inputOf e) = false).
  { unfold dodgeStarts. rewrite R. cbn [negb]. apply andb_false_r. }
  assert (P : (Env.now e - t0) / CONFIG.DODGE_DURATION < 1).
  { apply Qlt_shift_div_r; [reflexivity | lra]. }
  assert (M : rollProgressAt s (Env.now e) = (Env.now e - t0) / CONFIG.DODGE_DURATION).
  { unfold rollProgressAt, Math.min. rewrite S.
    assert (Le : Qle_bool ((Env.now e - t0) / CONFIG.DODGE_DURATION) 1 = true)
      by (apply Qle_bool_iff; lra).
    now rewrite Le. }
  assert (E : dodgeEnds s (Env.now e) = false).
  { unfold dodgeEnds. rewrite R, M. cbn [andb]. unfold Qgeb.
    apply Qle_bool_gt. exact P. }
  rewrite E, D, R, I, M. now repeat split.
Qed.

Lemma rolling_run es : forall s t0,
  Store.isRolling s = true -> Store.isInvulnerable s = true ->
  Store.dodgeStartTime s = t0 ->
  Forall (fun e => Env.now e - t0 < CONFIG.DODGE_DURATION) es ->
  Store.isRolling (run s es) = true /\ Store.isInvulnerable (run s es) = true /\
  Store.dodgeStartTime (run s es) = t0.
Proof.
  induction es as [| e es IH]; intros s t0 R I S F; [now repeat split |].
  inversion F as [| e' es' Fe Fes]; subst. rewrite run_cons.
  destruct (rolling_step s e _ R I eq_refl Fe) as (R' & I' & S' & _).
  now apply IH.
Qed.

Lemma rolling_ends s e t0 :
  Store.isRolling s = true -> Store.dodgeStartTime s = t0 ->
  CONFIG.DODGE_DURATION <= Env.now e - t0 ->
  Store.isRolling (step s e) = false /\ Store.isInvulnerable (step s e) = false /\
  Store.rollProgress (step s e) == 1 /\
  Store.dodgeCooldown (step s e) = CONFIG.DODGE_COOLDOWN.
Proof.
  intros R S L.
  rewrite step_isRolling, step_isInvulnerable, step_rollProgress, step_dodgeCooldown.
  assert (P : 1 <= (Env.now e - t0) / CONFIG.DODGE_DURATION).
  { apply Qle_shift_div_l; [reflexivity | lra]. }
  assert (M : rollProgressAt s (Env.now e) == 1).
  { unfold rollProgressAt, Math.min. rewrite S. qcase; qprop; lra. }
  assert (E : dodgeEnds s (Env.now e) = true).
  { unfold dodgeEnds. rewrite R. cbn [andb]. unfold Qgeb.
    apply Qle_bool_iff. rewrite M. lra. }
  rewrite E, R. now repeat split.
Qed.

(** X2. A barrel roll that starts on a frame sampled at [t0] starts at
    progress 0 and with invulnerability; after every later frame sampled less
    than [DODGE_DURATION] after [t0] it is still rolling and invulnerable, and
    such a frame sets the progress to [(now - t0) / DODGE_DURATION]; the first
    frame sampled [DODGE_DURATION] or more after [t0] sets the progress to 1,
    ends the roll and the invulnerability and starts the cooldown at
    [DODGE_COOLDOWN]. *)
Theorem roll_lasts_its_duration (c : Store.t) (e0 : Env.t) :
  Input.dodge (inputOf e0) = true ->
  Store.dodgeCooldown c == 0 ->
  Store.isRolling c = false ->
  let s := step c e0 in
  let t0 := Env.now e0 in
  (Store.isRolling s = true /\ Store.isInvulnerable s = true /\
   Store.rollProgress s = 0) /\
  (forall es,
      Forall (fun e => Env.now e - t0 < CONFIG.DODGE_DURATION) es ->
      Store.isRolling (run s es) = true /\
      Store.isInvulnerable (run s es) = true) /\
  (forall es e,
      Forall (fun e => Env.now e - t0 < CONFIG.DODGE_DURATION) es ->
      Env.now e - t0 < CONFIG.DODGE_DURATION ->
      Store.rollProgress (step (run s es) e)
      = (Env.now e - t0) / CONFIG.DODGE_DURATION) /\
  (forall es e,
      Forall (fun e => Env.now e - t0 < CONFIG.DODGE_DURATION) es ->
      CONFIG.DODGE_DURATION <= Env.now e - t0 ->
      Store.isRolling (step (run s es) e) = false /\
      Store.isInvulnerable (step (run s es) e) = false /\
      Store.rollProgress (step (run s es) e) == 1 /\
      Store.dodgeCooldown (step (run s es) e) = CONFIG.DODGE_COOLDOWN).
Proof.
  intros D C R s t0.
  assert (St : dodgeStarts c (inputOf e0) = true).
  { unfold dodgeStarts. rewrite D, R. cbn [andb negb].
    rewrite andb_true_r. now apply Qeq_bool_iff. }
  assert (E0 : dodgeEnds c (Env.now e0) = false)
    by (unfold dodgeEnds; now rewrite R).
  assert (S0 : Store.isRolling s = true /\ Store.isInvulnerable s = true /\
               Store.rollProgress s = 0 /\ Store.dodgeStartTime s = t0).
  { subst s. rewrite step_isRolling, step_isInvulnerable, step_rollProgress,
      step_dodgeStartTime, St, E0, R. now repeat split. }
  destruct S0 as (R0 & I0 & P0 & T0).
  split; [now repeat split |]. split; [| split].
  - intros es F. destruct (rolling_run es s t0 R0 I0 T0 F) as (R1 & I1 & _).
    now split.
  - intros es e F L. destruct (rolling_run es s t0 R0 I0 T0 F) as (R1 & I1 & T1).
    now apply (rolling_step (run s es) e t0).
  - intros es e F L. destruct (rolling_run es s t0 R0 I0 T0 F) as (R1 & I1 & T1).
    now apply (rolling_ends (run s es) e t0).
Qed.

End Episodes.


(** X2 at work: dodge pressed at 1000 ms; rolling at 1300, over at 1600. *)
Lemma roll_lasts_its_duration_witness :
  let s := step (H := demoHost) mounted0 (pressing dodgeKey (idleEnv 1000)) in
  (Store.isRolling (run (H := demoHost) s [idleEnv 1300]) = true /\
   Store.isInvulnerable (run (H := demoHost) s [idleEnv 1300]) = true) /\
  (Store.isRolling
     (step (H := demoHost) (run (H := demoHost) s [idleEnv 1300]) (idleEnv 1600)) = false /\
   Store.isInvulnerable
     (step (H := demoHost) (run (H := demoHost) s [idleEnv 1300]) (idleEnv 1600)) = false /\
   Store.rollProgress
     (step (H := demoHost) (run (H := demoHost) s [idleEnv 1300]) (idleEnv 1600)) == 1 /\
   Store.dodgeCooldown
     (step (H := demoHost) (run (H := demoHost) s [idleEnv 1300]) (idleEnv 1600))
   = CONFIG.DODGE_COOLDOWN).
Proof.
  cbv zeta.
  destruct (roll_lasts_its_duration (H := demoHost) mounted0
              (pressing dodgeKey (idleEnv 1000)))
    as (_ & Stays & _ & Ends); [reflexivity | reflexivity | reflexivity |].
  assert (F : Forall (fun e => Env.now e - Env.now (pressing dodgeKey (idleEnv 1000))
                               < CONFIG.DODGE_DURATION) [idleEnv 1300])
    by (repeat constructor).
  split.
  - exact (Stays [idleEnv 1300] F).
  - apply (Ends [idleEnv 1300] (idleEnv 1600) F). vm_compute. discriminate.
Defined.

(* ------------------------------------------------------------------------- *)
(** ** The dodge gate *)

Section Dodge.
Context `{Host}.

Lemma dodgeStarts_true c input :
  dodgeStarts c input = true <->
  Input.dodge input = true /\ Store.dodgeCooldown c == 0 /\ Store.isRolling c = false.
Proof.
  unfold dodgeStarts. rewrite !andb_true_iff, negb_true_iff, Qeq_bool_iff. tauto.
Qed.

Lemma dodgeStarts_blocked c input :
  Store.isRolling c = true \/ 0 < Store.dodgeCooldown c ->
  dodgeStarts c input = false.
Proof.
  intros [A | C]; unfold dodgeStarts.
  - rewrite A. cbn [negb]. apply andb_false_r.
  - assert (E : Qeq_bool (Store.dodgeCooldown c) 0 = false)
      by (apply Qeq_bool_false; lra).
    rewrite E, andb_false_r. reflexivity.
Qed.

Lemma gameClosed_withoutDodge c e :
  dodgeStarts c (inputOf e) = false ->
  gameClosed c e = gameClosed c (withoutDodge e).
Proof.
  intro B.
  assert (B' : dodgeStarts c (inputOf (withoutDodge e)) = false) by reflexivity.
  unfold gameClosed. rewrite B, B'.
  destruct e as [now delta random renderNow keys mouse gamepad sink].
  destruct keys, gamepad as [l r b]; destruct b.
  reflexivity.
Qed.

(** X3. A barrel roll starts on a frame exactly when dodge is requested, the
    dodge cooldown is 0 and no roll is in progress; a request made during a
    roll or while the cooldown is positive changes nothing: the frame leaves
    the store the same frame without the request leaves. *)
Theorem dodge_activation_gate c e :
  (Store.isRolling c = false /\ Store.isRolling (step c e) = true <->
   Input.dodge (inputOf e) = true /\ Store.dodgeCooldown c == 0 /\
   Store.isRolling c = false) /\
  (Store.isRolling c = true \/ 0 < Store.dodgeCooldown c ->
   step c e = step c (withoutDodge e)).
Proof.
  split.
  - rewrite step_isRolling, <- dodgeStarts_true.
    unfold dodgeEnds, dodgeStarts.
    destruct (Store.isRolling c); cbn [andb negb].
    + rewrite andb_false_r.
      destruct (Qgeb (rollProgressAt c (Env.now e)) 1); split; intros; intuition discriminate.
    + destruct (Input.dodge (inputOf e) && Qeq_bool (Store.dodgeCooldown c) 0);
        intuition discriminate.
  - intro B. rewrite !step_closed. unfold nextProjectiles.
    rewrite <- (gameClosed_withoutDodge c e) by now apply dodgeStarts_blocked.
    reflexivity.
Qed.

End Dodge.

(** X3 at work: with the dodge cooldown running a pressed dodge key is
    ignored; on the mounted controller it starts the roll. *)
Lemma dodge_activation_gate_witness :
  let cooling :=
    run (H := demoHost) mounted0
      [pressing dodgeKey (idleEnv 1000); idleEnv 1600] in
  let e := pressing dodgeKey (idleEnv 1616) in
  0 < Store.dodgeCooldown cooling /\
  step (H := demoHost) cooling e = step (H := demoHost) cooling (withoutDodge e) /\
  Store.isRolling (step (H := demoHost) mounted0 e) = true.
Proof.
  split; [reflexivity |]. split.
  - apply (dodge_activation_gate (H := demoHost)). right. reflexivity.
  - apply (proj1 (dodge_activation_gate (H := demoHost) mounted0
                    (pressing dodgeKey (idleEnv 1616)))).
    repeat split.
Defined.

(* ------------------------------------------------------------------------- *)
(** ** Device events *)

Lemma fire_setKey a v k : Keys.fire (setKey a v k) = Keys.fire k.
Proof. destruct a; reflexivity. Qed.

(** X4. A key event of a code that [keyMap] lists sets its action, true on
    keydown and false on keyup, and leaves the other actions and [fire]
    alone; an event of any other code changes nothing.  The state holds one
    flag for an action, not one for a key: releasing either key of an action
    clears it, though the other key is still down. *)
Theorem key_events (code : string) (k : Keys.t) :
  (keyMap_get code = None ->
   handleKeyDown code k = k /\ handleKeyUp code k = k) /\
  (forall action,
      keyMap_get code = Some action ->
      keyHeld action (handleKeyDown code k) = true /\
      keyHeld action (handleKeyUp code k) = false /\
      (forall other, other <> action ->
         keyHeld other (handleKeyDown code k) = keyHeld other k /\
         keyHeld other (handleKeyUp code k) = keyHeld other k) /\
      Keys.fire (handleKeyDown code k) = Keys.fire k /\
      Keys.fire (handleKeyUp code k) = Keys.fire k /\
      (forall code', keyMap_get code' = Some action ->
         keyHeld action (handleKeyUp code (handleKeyDown code' (handleKeyDown code k)))
         = false)).
Proof.
  unfold handleKeyDown, handleKeyUp. split.
  - intros ->. now split.
  - intros action E. rewrite E.
    split; [destruct action; reflexivity |].
    split; [destruct action; reflexivity |].
    split; [| split; [apply fire_setKey | split; [apply fire_setKey |]]].
    + intros other N. destruct other, action; try contradiction; now split.
    + intros code' E'. rewrite E'. destruct action; reflexivity.
Qed.

(** X4 at work: W and the up arrow both down, then the arrow released. *)
Lemma key_events_witness :
  keyHeld Action.up (handleKeyDown "KeyW" Keys.initial) = true /\
  keyHeld Action.up
    (handleKeyUp "ArrowUp" (handleKeyDown "KeyW" (handleKeyDown "ArrowUp" Keys.initial)))
  = false /\
  handleKeyDown "KeyQ" Keys.initial = Keys.initial.
Proof.
  split; [| split].
  - apply (proj2 (key_events "KeyW" Keys.initial) Action.up). reflexivity.
  - apply (proj2 (key_events "ArrowUp" Keys.initial) Action.up); reflexivity.
  - apply (proj1 (key_events "KeyQ" Keys.initial)). reflexivity.
Defined.

(** X5. Only the main button (0) of the mouse fires: pressing it sets [fire],
    releasing it clears [fire], no movement or ability key changes, and any
    other button changes nothing. *)
Theorem mouse_buttons (button : Z) (k : Keys.t) :
  (button = 0%Z ->
   Keys.fire (handleMouseDown button k) = true /\
   Keys.fire (handleMouseUp button k) = false /\
   forall action,
     keyHeld action (handleMouseDown button k) = keyHeld action k /\
     keyHeld action (handleMouseUp button k) = keyHeld action k) /\
  (button <> 0%Z ->
   handleMouseDown button k = k /\ handleMouseUp button k = k).
Proof.
  unfold handleMouseDown, handleMouseUp. split.
  - intros ->. cbn [Z.eqb]. split; [reflexivity |]. split; [reflexivity |].
    intro action. destruct action; now split.
  - intro N. apply Z.eqb_neq in N. rewrite N. now split.
Qed.

(** X5 at work: the main button, and the secondary button (2). *)
Lemma mouse_buttons_witness :
  Keys.fire (handleMouseDown 0 Keys.initial) = true /\
  handleMouseDown 2 (handleKeyDown "Space" Keys.initial)
  = handleKeyDown "Space" Keys.initial.
Proof.
  split.
  - apply (proj1 (mouse_buttons 0 Keys.initial)). reflexivity.
  - apply (proj2 (mouse_buttons 2 (handleKeyDown "Space" Keys.initial))). discriminate.
Defined.

(* ------------------------------------------------------------------------- *)
(** ** Removing a projectile *)

Lemma removeProjectile_closed id s :
  snd (removeProjectile id s) =
  Store.with_projectiles
    (filter (fun p => negb (Qeq_bool (Projectile.id p) id)) (Store.projectiles s)) s.
Proof. reflexivity. Qed.

Lemma projectiles_with_projectiles l s :
  Store.projectiles (Store.with_projectiles l s) = l.
Proof. destruct s; reflexivity. Qed.

Lemma with_projectiles_same s : Store.with_projectiles (Store.projectiles s) s = s.
Proof. destruct s; reflexivity. Qed.

Lemma with_projectiles_twice l l' s :
  Store.with_projectiles l (Store.with_projectiles l' s) = Store.with_projectiles l s.
Proof. destruct s; reflexivity. Qed.

Lemma filter_all {A} (f : A -> bool) l :
  (forall x, In x l -> f x = true) -> filter f l = l.
Proof.
  induction l as [| a l IH]; intro All; [reflexivity |].
  cbn [filter]. rewrite (All a (or_introl eq_refl)). f_equal.
  apply IH. intros x I. apply All. now right.
Qed.

Lemma filter_filter_same {A} (f : A -> bool) l : filter f (filter f l) = filter f l.
Proof.
  apply filter_all. intros x I. now apply filter_In in I.
Qed.

(** X6. [removeProjectile id] deletes from the array every projectile whose
    id is [id] and no other: the rest stay, in their order; nothing else in
    the store changes; an id the array does not hold, and a second removal of
    the same id, change nothing. *)
Theorem removeProjectile_removes (id : Q) (s : Store.t) :
  let s' := snd (removeProjectile id s) in
  (forall p, In p (Store.projectiles s') <->
             In p (Store.projectiles s) /\ ~ Projectile.id p == id) /\
  (forall l1 p l2,
      Store.projectiles s = l1 ++ p :: l2 ->
      Projectile.id p == id ->
      (forall q, In q (l1 ++ l2) -> ~ Projectile.id q == id) ->
      Store.projectiles s' = l1 ++ l2) /\
  s' = Store.with_projectiles (Store.projectiles s') s /\
  ((forall p, In p (Store.projectiles s) -> ~ Projectile.id p == id) -> s' = s) /\
  snd (removeProjectile id s') = s'.
Proof.
  cbv zeta. rewrite !removeProjectile_closed, !projectiles_with_projectiles.
  split; [| split; [| split; [| split]]].
  - intro p. rewrite filter_In, negb_true_iff, Qeq_bool_false. tauto.
  - intros l1 p l2 E I Others. rewrite E, filter_app. cbn [filter].
    apply Qeq_bool_iff in I. rewrite I. cbn [negb].
    rewrite !filter_all; [reflexivity | |].
    + intros q Q. apply negb_true_iff, Qeq_bool_false, Others, in_or_app. now right.
    + intros q Q. apply negb_true_iff, Qeq_bool_false, Others, in_or_app. now left.
  - reflexivity.
  - intro None. rewrite filter_all; [apply with_projectiles_same |].
    intros p I. apply negb_true_iff, Qeq_bool_false, None, I.
  - now rewrite with_projectiles_twice, filter_filter_same.
Qed.

(** X6 at work: the shot's projectile removed from the array that holds it
    alone. *)
Lemma removeProjectile_removes_witness :
  let ship := Vector3.mk 0 0 0 in
  let reticle := Vector3.mk 0 0 (-50) in
  let s := fired (H := demoHost) ship reticle 1000 (1 # 2) mounted0 in
  let p := Projectile.mk (1000 + (1 # 2)) ship
             (Vector3_normalize (H := demoHost) (Vector3.subVectors reticle ship)) in
  Store.projectiles s = [p] /\
  Store.projectiles (snd (removeProjectile (1000 + (1 # 2)) s)) = [].
Proof.
  cbv zeta. split; [reflexivity |].
  apply (proj1 (proj2 (removeProjectile_removes (1000 + (1 # 2))
                         (fired (H := demoHost) (Vector3.mk 0 0 0) (Vector3.mk 0 0 (-50))
                                1000 (1 # 2) mounted0)))
           []
           (Projectile.mk (1000 + (1 # 2)) (Vector3.mk 0 0 0)
              (Vector3_normalize (H := demoHost)
                 (Vector3.subVectors (Vector3.mk 0 0 (-50)) (Vector3.mk 0 0 0))))
           []).
  - reflexivity.
  - reflexivity.
  - intros q [].
Defined.

(* ------------------------------------------------------------------------- *)
(** ** The range of the input *)

Lemma unit_range_0 : unit_range 0.
Proof. unfold unit_range. lra. Qed.

Lemma unit_range_opp v : unit_range v -> unit_range (- v).
Proof. unfold unit_range. lra. Qed.

Lemma unit_range_num_or a b : unit_range a -> unit_range b -> unit_range (num_or a b).
Proof. intros A B. unfold num_or. now destruct (Qeq_bool a 0). Qed.

Lemma unit_range_applyDeadzone v : unit_range v -> unit_range (applyDeadzone v).
Proof.
  intro V. unfold applyDeadzone.
  destruct (Qltb (Math.abs v) deadzone); [apply unit_range_0 | exact V].
Qed.

Lemma unit_range_nth i axes : Forall unit_range axes -> unit_range (nth i axes 0).
Proof.
  intro F. destruct (nth_in_or_default i axes 0) as [I | ->].
  - rewrite Forall_forall in F. now apply F.
  - apply unit_range_0.
Qed.

Lemma pollGamepad_in_range pad last mouse :
  match pad with Some (axes, _) => Forall unit_range axes | None => True end ->
  devicesInRange mouse last ->
  devicesInRange mouse (pollGamepad pad last).
Proof.
  intros P L. destruct pad as [[axes pressed] |]; [| exact L].
  unfold devicesInRange, pollGamepad in *.
  cbn [Gamepad.leftStick Gamepad.rightStick XY.x XY.y].
  repeat split; try apply unit_range_num_or; try apply unit_range_nth;
    try apply unit_range_0; try exact P; apply L.
Qed.

(** X7. With every axis the pad reports and the pointer within -1..1, the
    four axes of the input are within -1..1, whatever the keys and the
    buttons: with no pad, with a pad that reports fewer than four axes, and
    with the pointer where [handleMouseMove] puts it for a position inside
    the viewport. *)
Theorem input_in_range (keys : Keys.t) (mouse : XY.t)
    (pad : option (list Q * list bool)) (last : Gamepad.t) :
  match pad with Some (axes, _) => Forall unit_range axes | None => True end ->
  devicesInRange mouse last ->
  let input := useInputManager keys mouse (pollGamepad pad last) in
  unit_range (Input.moveX input) /\ unit_range (Input.moveY input) /\
  unit_range (Input.aimX input) /\ unit_range (Input.aimY input).
Proof.
  intros P L. pose proof (pollGamepad_in_range pad last mouse P L) as D.
  cbv zeta. destruct D as (Lx & Ly & Rx & Ry & Mx & My).
  unfold useInputManager. cbn [Input.moveX Input.moveY Input.aimX Input.aimY].
  repeat split.
  all: repeat first
         [ apply unit_range_num_or | apply unit_range_applyDeadzone
         | apply unit_range_opp | apply unit_range_0 | assumption ].
  all: try (destruct (Keys.left keys), (Keys.right keys); unfold unit_range; lra).
  all: try (destruct (Keys.up keys), (Keys.down keys); unfold unit_range; lra).
Qed.

(** X7 at work: a pad that reports two axes, the pointer at the top left
    corner of an 800 by 600 viewport. *)
Lemma input_in_range_witness :
  let mouse := handleMouseMove 0 0 800 600 in
  let input :=
    useInputManager rightKey mouse
      (pollGamepad (Some ([1 # 10; - (1)], [])) Gamepad.initial) in
  unit_range (Input.moveX input) /\ unit_range (Input.moveY input) /\
  unit_range (Input.aimX input) /\ unit_range (Input.aimY input).
Proof.
  apply (input_in_range rightKey (handleMouseMove 0 0 800 600)
           (Some ([1 # 10; - (1)], [])) Gamepad.initial).
  - repeat constructor; discriminate.
  - unfold devicesInRange, unit_range. cbn. repeat split; discriminate.
Defined.

(* ------------------------------------------------------------------------- *)
(** ** The rate of fire in the frame loop *)

Section FireLoop.
Context `{Host}.





End FireLoop.


